(** * A shallow embedding of the reinforcement-learning framework

    Sources embedded here:
    - [src/justinnhli_research/reinforcement_learning.py]: [AttrDict],
      [Action], [State], [TabularQLearningAgent], [epsilon_greedy],
      [GridWorld], [gating_memory], [TMaze];
    - [src/research/pspace_run.py]: [get_parameters].

    Python objects are modelled by records, mutation by explicit state
    passing, exceptions by the [result] type, classes with overridable
    methods by method tables closed over [self] (open recursion), and the
    pseudo-random generator by the draws it hands out. *)

From Stdlib Require Import ZArith List String Ascii Bool Lia Arith.
From Stdlib Require Import DecimalString.
From Stdlib Require Import PrimFloat.
Import ListNotations.

Set Implicit Arguments.

Local Open Scope string_scope.
Local Open Scope list_scope.
Local Open Scope Z_scope.

(** ** Exceptions *)

Inductive exn : Type :=
| NotImplementedError
| AssertionError
| AttributeError
| IndexError
| TypeError
| ZeroDivisionError.

Inductive result (A : Type) : Type :=
| Ok (a : A)
| Raise (e : exn).

Arguments Ok {A} a.
Arguments Raise {A} e.

Definition bind {A B : Type} (m : result A) (k : A -> result B) : result B :=
  match m with
  | Ok a => k a
  | Raise e => Raise e
  end.

Declare Scope py_scope.
Delimit Scope py_scope with py.
Notation "x <- m ;; k" := (bind m (fun x => k))
  (at level 61, m at next level, right associativity) : py_scope.
Notation "' p <- m ;; k" := (bind m (fun x => let p := x in k))
  (at level 61, p pattern, m at next level, right associativity) : py_scope.
Local Open Scope py_scope.

(** ** Attribute values and keyword dictionaries *)

(** The values that occur as attributes of states, observations and
    actions in this code: integers, strings and [None]. *)
Inductive value : Type :=
| VNone
| VInt (z : Z)
| VStr (s : string).

Definition value_eqb (a b : value) : bool :=
  match a, b with
  | VNone, VNone => true
  | VInt x, VInt y => Z.eqb x y
  | VStr s, VStr t => String.eqb s t
  | _, _ => false
  end.

(** A [**kwargs] dictionary: the pairs in insertion order, keys distinct. *)
Definition attrs : Type := list (string * value).

Fixpoint attr_get (k : string) (d : attrs) : option value :=
  match d with
  | [] => None
  | (k', v) :: d' => if String.eqb k k' then Some v else attr_get k d'
  end.

Definition opt_eqb {A : Type} (eqb : A -> A -> bool) (a b : option A) : bool :=
  match a, b with
  | None, None => true
  | Some x, Some y => eqb x y
  | _, _ => false
  end.

(** [dict.__eq__]: the two dictionaries bind the same keys, each to equal
    values. *)
Definition attrs_eqb (a b : attrs) : bool :=
  forallb (fun k => opt_eqb value_eqb (attr_get k a) (attr_get k b))
          (map fst a ++ map fst b).

(** ** [AttrDict], [State] and [Action] *)

(** The dynamic class of an attribute bag: [State(...)] in the concrete
    environments, plain [AttrDict(...)] in the gating-memory wrapper. *)
Inductive klass : Type := KAttrDict | KState.

Definition klass_eqb (a b : klass) : bool :=
  match a, b with
  | KAttrDict, KAttrDict | KState, KState => true
  | _, _ => false
  end.

Record AttrDict : Type := mkAttrDict {
  klass_of : klass;
  _attributes_ : attrs
}.

Definition State (kw : attrs) : AttrDict := mkAttrDict KState kw.

(** [AttrDict.__eq__]: [type(self) is type(other) and
    self._attributes_ == other._attributes_]. *)
Definition AttrDict_eq (a b : AttrDict) : bool :=
  klass_eqb (klass_of a) (klass_of b)
  && attrs_eqb (_attributes_ a) (_attributes_ b).

(** [AttrDict.__getattr__].  Field names are taken not to shadow the
    members Python finds before it falls back to [__getattr__]
    ([as_dict], [_attributes_], the dunder names). *)
Definition AttrDict_getattr (o : AttrDict) (nm : string) : result value :=
  match attr_get nm (_attributes_ o) with
  | Some v => Ok v
  | None => Raise AttributeError
  end.

(** [getattr(obj, nm)] where [obj] may be [None]. *)
Definition getattr (o : option AttrDict) (nm : string) : result value :=
  match o with
  | Some d => AttrDict_getattr d nm
  | None => Raise AttributeError
  end.

(** [AttrDict.as_dict]: the keyword dictionary (a copy). *)
Definition as_dict (o : AttrDict) : attrs := _attributes_ o.

Record Action : Type := mkAction {
  name : string;
  action_attributes : attrs
}.

(** [Action.__getattr__], same fallback as [AttrDict]. *)
Definition Action_getattr (a : Action) (nm : string) : result value :=
  match attr_get nm (action_attributes a) with
  | Some v => Ok v
  | None => Raise AttributeError
  end.

(** [Action] inherits [AttrDict.__eq__]: two actions compare equal when
    their keyword dictionaries do; the [name] is not looked at. *)
Definition Action_eq (a b : Action) : bool :=
  attrs_eqb (action_attributes a) (action_attributes b).

(** [action in actions] on a list: some element [x] with [x == action]. *)
Definition py_in (a : Action) (l : list Action) : bool :=
  existsb (fun x => Action_eq x a) l.

(** Identity as a dictionary key: equal hashes and [==].
    [Action.__hash__] hashes the tuple [(name, *sorted(items))], so with a
    hash that separates distinct tuples two actions are the same key when
    they agree on the name and on the items. *)
Definition Action_key_eqb (a b : Action) : bool :=
  String.eqb (name a) (name b) && Action_eq a b.

(** Observations and actions as they are passed around: [None] is the
    terminal marker, respectively "no action". *)
Definition observation : Type := option AttrDict.
Definition action_opt : Type := option Action.

Definition obs_key_eqb : observation -> observation -> bool := opt_eqb AttrDict_eq.
Definition act_key_eqb : action_opt -> action_opt -> bool := opt_eqb Action_key_eqb.

(** ** Python numbers *)

(** Rewards as the environments write them: [int] or [float] literals. *)
Inductive pynum : Type :=
| PInt (z : Z)
| PFloat (f : float).

(** The arithmetic the agent performs on its estimates.  The agent code
    is written once for any number type; the instance [float_number]
    is IEEE binary64, which is what Python's [float] is. *)
Class PyNumber (R : Type) : Type := {
  zero : R;
  one : R;
  add : R -> R -> R;
  sub : R -> R -> R;
  mul : R -> R -> R;
  ltb : R -> R -> bool
}.

(** Python's [a > b] *)
Definition gtb {R : Type} `{PyNumber R} (a b : R) : bool := ltb b a.

#[export] Instance float_number : PyNumber float := {|
  zero := PrimFloat.zero;
  one := PrimFloat.one;
  add := PrimFloat.add;
  sub := PrimFloat.sub;
  mul := PrimFloat.mul;
  ltb := PrimFloat.ltb
|}.

#[export] Instance Z_number : PyNumber Z := {|
  zero := 0;
  one := 1;
  add := Z.add;
  sub := Z.sub;
  mul := Z.mul;
  ltb := Z.ltb
|}.

(** ** Dictionaries in insertion order

    A Python [dict] (3.7 and later) iterates in insertion order, and
    [max] breaks ties by that order, so a dictionary is the list of its
    items.  [keq] is key identity (equal hash and [==]). *)

Section PyDict.
Variables (K V : Type) (keq : K -> K -> bool).

Definition pydict : Type := list (K * V).

Fixpoint dict_get (k : K) (d : pydict) : option V :=
  match d with
  | [] => None
  | (k', v) :: d' => if keq k' k then Some v else dict_get k d'
  end.

(** [d[k] = v]: an existing key keeps its place (and its key object),
    a new one goes last. *)
Fixpoint dict_set (k : K) (v : V) (d : pydict) : pydict :=
  match d with
  | [] => [(k, v)]
  | (k', v') :: d' =>
      if keq k' k then (k', v) :: d' else (k', v') :: dict_set k v d'
  end.

Definition dict_keys (d : pydict) : list K := map fst d.
End PyDict.

(** ** [TabularQLearningAgent] *)

Section Agent.
Context {R : Type} `{PyNumber R}.

(** One row of the table: [defaultdict(float)], from actions to
    estimates.  [None] can be a key, because [get_best_value] looks up
    the result of [get_best_action]. *)
Definition row : Type := pydict action_opt R.

(** [defaultdict(lambda: defaultdict(float))] *)
Definition table : Type := pydict observation row.

Record TabularQLearningAgent : Type := mkAgent {
  value_function : table;
  learning_rate : R;
  discount_rate : R;
  prev_observation : observation;
  prev_action : action_opt
}.

(** [TabularQLearningAgent.__init__] *)
Definition init (alpha gamma : R) : TabularQLearningAgent :=
  mkAgent [] alpha gamma None None.

Definition set_value_function (vf : table) (ag : TabularQLearningAgent) :=
  mkAgent vf (learning_rate ag) (discount_rate ag)
          (prev_observation ag) (prev_action ag).

Definition set_prev (o : observation) (a : action_opt) (ag : TabularQLearningAgent) :=
  mkAgent (value_function ag) (learning_rate ag) (discount_rate ag) o a.

(** [row[action]] on a [defaultdict(float)]: a missing key is first
    bound to [float()], that is [0.0]. *)
Definition row_getitem (a : action_opt) (r : row) : R * row :=
  match dict_get act_key_eqb a r with
  | Some v => (v, r)
  | None => (zero, dict_set act_key_eqb a zero r)
  end.

(** [TabularQLearningAgent.get_value]: the value and the agent
    afterwards. *)
Definition get_value (o : observation) (a : action_opt)
    (ag : TabularQLearningAgent) : R * TabularQLearningAgent :=
  match dict_get obs_key_eqb o (value_function ag) with
  | None => (zero, ag)
  | Some r =>
      let (v, r') := row_getitem a r in
      (v, set_value_function (dict_set obs_key_eqb o r' (value_function ag)) ag)
  end.

(** [TabularQLearningAgent.get_valued_actions] *)
Definition get_valued_actions (o : observation)
    (ag : TabularQLearningAgent) : list action_opt :=
  match dict_get obs_key_eqb o (value_function ag) with
  | None => []
  | Some r => dict_keys r
  end.

(** The loop of the builtin [max(iterable, key=...)]: a later item
    replaces the current one only when its key is strictly greater. *)
Fixpoint max_loop (o : observation) (best : action_opt) (bestv : R)
    (l : list action_opt) (ag : TabularQLearningAgent)
    : action_opt * TabularQLearningAgent :=
  match l with
  | [] => (best, ag)
  | a :: l' =>
      let (v, ag1) := get_value o a ag in
      if gtb v bestv then max_loop o a v l' ag1
      else max_loop o best bestv l' ag1
  end.

(** [Agent.get_best_action] *)
Definition get_best_action (o : observation) (ag : TabularQLearningAgent)
    : action_opt * TabularQLearningAgent :=
  match get_valued_actions o ag with
  | [] => (None, ag)
  | a :: l =>
      let (v, ag1) := get_value o a ag in
      max_loop o a v l ag1
  end.

(** [Agent.get_best_value] *)
Definition get_best_value (o : observation) (ag : TabularQLearningAgent)
    : R * TabularQLearningAgent :=
  let (a, ag1) := get_best_action o ag in
  get_value o a ag1.

(** [value_function[o][a] = v] on the nested [defaultdict]: a missing
    row is created (last) before the item is stored in it. *)
Definition table_setitem (o : observation) (a : action_opt) (v : R)
    (vf : table) : table :=
  match dict_get obs_key_eqb o vf with
  | Some r => dict_set obs_key_eqb o (dict_set act_key_eqb a v r) vf
  | None => dict_set obs_key_eqb o (dict_set act_key_eqb a v []) vf
  end.

(** [TabularQLearningAgent._observe_reward] *)
Definition _observe_reward (o : observation) (reward : R)
    (ag : TabularQLearningAgent) : TabularQLearningAgent :=
  let (prev_value, ag1) := get_value (prev_observation ag) (prev_action ag) ag in
  let (best, ag2) := get_best_value o ag1 in
  let next_value := add reward (mul (discount_rate ag2) best) in
  let new_value :=
    add (mul (sub one (learning_rate ag2)) prev_value)
        (mul (learning_rate ag2) next_value) in
  set_value_function
    (table_setitem (prev_observation ag2) (prev_action ag2) new_value
                   (value_function ag2)) ag2.

(** [TabularQLearningAgent.force_act] *)
Definition force_act (o : observation) (a : action_opt) (reward : option R)
    (ag : TabularQLearningAgent) : action_opt * TabularQLearningAgent :=
  let ag1 :=
    match prev_action ag, reward with
    | Some _, Some r => _observe_reward o r ag
    | _, _ => ag
    end in
  let ag2 :=
    match o with
    | None => set_prev o None ag1
    | Some _ => set_prev o a ag1
    end in
  (a, ag2).

(** [random.choice(seq)]: [seq[randbelow(len(seq))]], an [IndexError]
    on an empty sequence.  [draw] is what the generator hands out,
    reduced to an index of [seq]. *)
Definition choice {A : Type} (draw : nat) (seq : list A) : result A :=
  match nth_error seq (Nat.modulo draw (List.length seq)) with
  | Some x => Ok x
  | None => Raise IndexError
  end.

(** [TabularQLearningAgent.act].  An exception leaves the agent as it
    was when it was raised. *)
Definition act (o : observation) (actions : list Action) (reward : option R)
    (draw : nat) (ag : TabularQLearningAgent)
    : result action_opt * TabularQLearningAgent :=
  let (best_action, ag1) := get_best_action o ag in
  match best_action with
  | Some _ =>
      let (a, ag2) := force_act o best_action reward ag1 in (Ok a, ag2)
  | None =>
      match choice draw actions with
      | Ok c => let (a, ag2) := force_act o (Some c) reward ag1 in (Ok a, ag2)
      | Raise e => (Raise e, ag1)
      end
  end.
End Agent.

Arguments TabularQLearningAgent R : clear implicits.
Arguments row R : clear implicits.
Arguments table R : clear implicits.


(** ** [epsilon_greedy]

    [EpsilonGreedyMetaAgent(cls)] overrides [act] only and reaches the
    wrapped class through [super().act] and [super().force_act].  The
    wrapped class is given by these two methods, as they run on an
    object with attributes [S]; [Rnd] is whatever randomness its [act]
    consumes.  ([TabularQLearningAgent] calls [self.act] nowhere, so its
    methods run on the wrapper as they do on a plain agent.) *)

Section EpsilonGreedy.
Context {R : Type} `{PyNumber R}.
Variables (S Rnd : Type).
Variable super_act :
  observation -> list Action -> option R -> Rnd -> S -> result action_opt * S.
Variable super_force_act :
  observation -> action_opt -> option R -> S -> result action_opt * S.
Variable epsilon : R.

(** [EpsilonGreedyMetaAgent.act].  [u] is the value of [random()] and
    [draw] the draw behind [choice(actions)]. *)
Definition EpsilonGreedy_act (o : observation) (actions : list Action)
    (reward : option R) (u : R) (draw : nat) (rnd : Rnd) (s : S)
    : result action_opt * S :=
  if ltb u epsilon then
    match choice draw actions with
    | Ok c => super_force_act o (Some c) reward s
    | Raise e => (Raise e, s)
    end
  else super_act o actions reward rnd s.

(** One call of [act] as the episode driver makes it, with the values
    the random generator yields during the call. *)
Record act_call : Type := mkCall {
  call_observation : observation;
  call_actions : list Action;
  call_reward : option R;
  call_random : R;
  call_draw : nat;
  call_rnd : Rnd
}.

(** A sequence of calls on the wrapper: the actions returned (or the
    exceptions raised) and the final state. *)
Fixpoint run_wrapped (calls : list act_call) (s : S)
    : list (result action_opt) * S :=
  match calls with
  | [] => ([], s)
  | c :: calls' =>
      let (a, s1) := EpsilonGreedy_act (call_observation c) (call_actions c)
                       (call_reward c) (call_random c) (call_draw c)
                       (call_rnd c) s in
      let (out, s2) := run_wrapped calls' s1 in
      (a :: out, s2)
  end.

End EpsilonGreedy.

(** [TabularQLearningAgent.force_act] never raises. *)
Definition Tabular_force_act {R : Type} `{PyNumber R} (o : observation)
    (a : action_opt) (reward : option R) (ag : TabularQLearningAgent R)
    : result action_opt * TabularQLearningAgent R :=
  let (a', ag') := force_act o a reward ag in (Ok a', ag').

(** [epsilon_greedy(TabularQLearningAgent, epsilon)]: its [act]. *)
Definition EpsilonGreedyTabular_act {R : Type} `{PyNumber R} (epsilon : R) :=
  EpsilonGreedy_act (fun o actions reward rnd ag => act o actions reward rnd ag)
                    Tabular_force_act epsilon.

(** ** The calls of the agent's public interface, for sequences of them *)

Inductive agent_call (R : Type) : Type :=
| CallGetValue (o : observation) (a : action_opt)
| CallAct (o : observation) (actions : list Action) (reward : option R) (draw : nat)
| CallForceAct (o : observation) (a : action_opt) (reward : option R).

Definition run_call {R : Type} `{PyNumber R} (c : agent_call R)
    (ag : TabularQLearningAgent R) : TabularQLearningAgent R :=
  match c with
  | CallGetValue _ o a => snd (get_value o a ag)
  | CallAct o actions reward draw => snd (act o actions reward draw ag)
  | CallForceAct o a reward => snd (force_act o a reward ag)
  end.

Definition run_calls {R : Type} `{PyNumber R} (cs : list (agent_call R))
    (ag : TabularQLearningAgent R) : TabularQLearningAgent R :=
  fold_left (fun ag c => run_call c ag) cs ag.

(** ** Environments: classes with overridable methods *)

Module Environment.

(** The methods of an environment object whose attributes are [W].  A
    method that raises returns [Raise]; the others return their value
    and, where they assign attributes, the object afterwards. *)
Record Env (W : Type) : Type := mkEnv {
  get_state : W -> result observation;
  get_observation : W -> result observation;
  get_actions : W -> result (list Action);
  reset : W -> result W;
  new_episode : W -> result W;
  react : W -> Action -> result (pynum * W)
}.

(** The base class [Environment]: every method raises
    [NotImplementedError]. *)
Definition abstract (W : Type) : Env W := {|
  get_state := fun _ => Raise NotImplementedError;
  get_observation := fun _ => Raise NotImplementedError;
  get_actions := fun _ => Raise NotImplementedError;
  reset := fun _ => Raise NotImplementedError;
  new_episode := fun _ => Raise NotImplementedError;
  react := fun _ _ => Raise NotImplementedError
|}.

End Environment.

Import Environment.

(** Where a class finds its own attributes [F] among those of the
    object [W] (which has more when a subclass adds some). *)
Record Lens (W F : Type) : Type := mkLens {
  view : W -> F;
  update : F -> W -> W
}.

Definition lens_id (F : Type) : Lens F F :=
  {| view := fun f => f; update := fun f _ => f |}.

Definition lens_compose {W V F : Type} (outer : Lens W V) (inner : Lens V F)
    : Lens W F :=
  {| view := fun w => view inner (view outer w);
     update := fun f w => update outer (update inner f (view outer w)) w |}.

(** A class: its methods, given the object they run on.  [self] is the
    method table of that object, so a call [self.m()] in a method body
    reaches the override of the most derived class. *)
Definition Class (F : Type) : Type :=
  forall W : Type, Lens W F -> Env W -> Env W.

(** The method table of an object of class [cls].  Method resolution is
    the fixed point of [cls]; [depth] bounds how deep calls through
    [self] may nest, and beyond it a call finds the abstract method. *)
Fixpoint instantiate {W : Type} (cls : Env W -> Env W) (depth : nat) : Env W :=
  match depth with
  | O => abstract W
  | Datatypes.S n => cls (instantiate cls n)
  end.

Definition object {F : Type} (cls : Class F) (depth : nat) : Env F :=
  instantiate (cls F (lens_id F)) depth.

Definition list_eqb {A : Type} (eqb : A -> A -> bool) : list A -> list A -> bool :=
  fix go (a b : list A) : bool :=
    match a, b with
    | [], [] => true
    | x :: a', y :: b' => eqb x y && go a' b'
    | _, _ => false
    end.

(** [assert cond] *)
Definition assert (cond : bool) : result unit :=
  if cond then Ok tt else Raise AssertionError.

(** [seq[i]] for a literal index [i >= 0] *)
Definition getitem {A : Type} (l : list A) (i : nat) : result A :=
  match nth_error l i with
  | Some x => Ok x
  | None => Raise IndexError
  end.

(** ** [GridWorld] *)

Module GridWorld.

Record fields : Type := mkFields {
  width : Z;
  height : Z;
  start : list Z;
  goal : list Z;
  row : Z;
  col : Z
}.

Definition set_row (r : Z) (f : fields) : fields :=
  mkFields (width f) (height f) (start f) (goal f) r (col f).

Definition set_col (c : Z) (f : fields) : fields :=
  mkFields (width f) (height f) (start f) (goal f) (row f) c.

(** [GridWorld.__init__] *)
Definition __init__ (width height : Z) (start goal : list Z) : result fields :=
  r <- getitem start 0 ;;
  c <- getitem start 1 ;;
  Ok (mkFields width height start goal r c).

Definition up : Action := mkAction "up" [].
Definition down : Action := mkAction "down" [].
Definition left : Action := mkAction "left" [].
Definition right : Action := mkAction "right" [].

Section Methods.
Context {W : Type} (L : Lens W fields) (self : Env W).

Definition at_goal (f : fields) : bool :=
  list_eqb Z.eqb [row f; col f] (goal f).

Definition get_state (w : W) : result observation :=
  let f := view L w in
  if at_goal f then Ok None
  else Ok (Some (State [("row", VInt (row f)); ("col", VInt (col f))])).

Definition get_observation (w : W) : result observation :=
  Environment.get_state self w.

Definition get_actions (w : W) : result (list Action) :=
  let f := view L w in
  let actions := [] in
  let actions := if row f >=? 0 then actions ++ [up] else actions in
  let actions := if row f <? height f - 1 then actions ++ [down] else actions in
  let actions := if col f >=? 0 then actions ++ [left] else actions in
  let actions := if col f <? width f - 1 then actions ++ [right] else actions in
  Ok actions.

Definition new_episode (w : W) : result W :=
  let f := view L w in
  r <- getitem (start f) 0 ;;
  c <- getitem (start f) 1 ;;
  Ok (update L (set_col c (set_row r f)) w).

Definition reset (w : W) : result W :=
  Environment.new_episode self w.

Definition react (w : W) (action : Action) : result (pynum * W) :=
  legal <- Environment.get_actions self w ;;
  _ <- assert (py_in action legal) ;;
  let f := view L w in
  if at_goal f then Ok (PInt 1, w)
  else
    let f' :=
      if String.eqb (name action) "up" then set_row (Z.max 0 (row f - 1)) f
      else if String.eqb (name action) "down" then set_row (Z.min (height f - 1) (row f + 1)) f
      else if String.eqb (name action) "left" then set_col (Z.max 0 (col f - 1)) f
      else if String.eqb (name action) "right" then set_col (Z.min (width f - 1) (col f + 1)) f
      else f in
    Ok (PInt (-1), update L f' w).

Definition methods : Env W := {|
  Environment.get_state := get_state;
  Environment.get_observation := get_observation;
  Environment.get_actions := get_actions;
  Environment.reset := reset;
  Environment.new_episode := new_episode;
  Environment.react := react
|}.
End Methods.

Definition class : Class fields := fun W L self => methods L self.

End GridWorld.

(** ** [TMaze] *)

Module TMaze.

(** The module-level random generator as the object sees it: the draws
    still to come and how many were taken. *)
Record rng : Type := mkRng {
  draws : nat -> nat;
  drawn : nat
}.

(** [choice([-1, 1])] *)
Definition choose_sign (g : rng) : Z * rng :=
  let g' := mkRng (draws g) (Datatypes.S (drawn g)) in
  match choice (draws g (drawn g)) [-1; 1] with
  | Ok z => (z, g')
  | Raise _ => (1, g')
  end.

Record fields : Type := mkFields {
  length : Z;
  hint_pos : Z;
  hint_pos_2 : option Z;
  x : Z;
  y : Z;
  goal_x : Z;
  logical_connective : Z;
  direction : Z;
  redundant : bool;
  redundant_connective : option Z;
  redundant_direction : option Z;
  generator : rng
}.

Definition set_xy (x' y' : Z) (f : fields) : fields :=
  mkFields (length f) (hint_pos f) (hint_pos_2 f) x' y' (goal_x f)
           (logical_connective f) (direction f) (redundant f)
           (redundant_connective f) (redundant_direction f) (generator f).

(** The assignments shared by [__init__] and [new_episode]. *)
Definition draw_episode (length hint_pos : Z) (hint_pos_2 : option Z)
    (redundant : bool) (g : rng) : fields :=
  let (goal_x, g1) := choose_sign g in
  let (logical_connective, g2) := choose_sign g1 in
  let direction := goal_x / logical_connective in
  mkFields length hint_pos hint_pos_2 0 0 goal_x logical_connective direction
           redundant
           (if redundant then Some (-1 * logical_connective) else None)
           (if redundant then Some (-1 * direction) else None)
           g2.

(** [TMaze.__init__] *)
Definition __init__ (length hint_pos : Z) (hint_pos_2 : option Z)
    (redundant : bool) (g : rng) : result fields :=
  _ <- assert ((0 <=? hint_pos) && (hint_pos <=? length)) ;;
  _ <- match hint_pos_2 with
       | Some h2 => assert ((0 <=? h2) && (h2 <=? length))
       | None => Ok tt
       end ;;
  _ <- (if redundant then
          _ <- assert (length >=? 3) ;;
          assert (match hint_pos_2 with Some _ => true | None => false end)
        else Ok tt) ;;
  Ok (draw_episode length hint_pos hint_pos_2 redundant g).

Definition up : Action := mkAction "up" [].
Definition left : Action := mkAction "left" [].
Definition right : Action := mkAction "right" [].
Definition halt : Action := mkAction "halt" [].

(** The literal [-0.050], as binary64 *)
Definition gate_penalty : float := (-0x1.999999999999ap-5)%float.

Definition opt_value (o : option Z) : value :=
  match o with Some z => VInt z | None => VNone end.

Section Methods.
Context {W : Type} (L : Lens W fields) (self : Env W).

Definition observe (f : fields) (symbol : value) : AttrDict :=
  State [("x", VInt (x f)); ("y", VInt (y f)); ("symbol", symbol)].

Definition get_state (w : W) : result observation :=
  let f := view L w in
  if (y f =? length f) && negb (x f =? 0) then Ok None
  else
    let plain := Ok (Some (observe f (VInt 0))) in
    match hint_pos_2 f with
    | None =>
        if y f =? hint_pos f then Ok (Some (observe f (VInt (goal_x f))))
        else plain
    | Some h2 =>
        if redundant f then
          if y f =? hint_pos f then
            Ok (Some (observe f (VInt (logical_connective f))))
          else if y f =? h2 then
            Ok (Some (observe f (VInt (direction f))))
          else if y f =? hint_pos f - 2 then
            Ok (Some (observe f (opt_value (redundant_connective f))))
          else if y f =? h2 - 2 then
            Ok (Some (observe f (opt_value (redundant_direction f))))
          else plain
        else
          if y f =? hint_pos f then
            Ok (Some (observe f (VInt (logical_connective f))))
          else if y f =? h2 then
            Ok (Some (observe f (VInt (direction f))))
          else plain
    end.

Definition get_observation (w : W) : result observation :=
  Environment.get_state self w.

Definition get_actions (w : W) : result (list Action) :=
  let f := view L w in
  if x f =? 0 then
    if y f <? length f then Ok [up]
    else if y f =? length f then Ok [left; right]
    else Ok []
  else Ok [halt].

Definition new_episode (w : W) : result W :=
  let f := view L w in
  Ok (update L (draw_episode (length f) (hint_pos f) (hint_pos_2 f)
                             (redundant f) (generator f)) w).

Definition reset (w : W) : result W :=
  Environment.new_episode self w.

Definition react (w : W) (action : Action) : result (pynum * W) :=
  legal <- Environment.get_actions self w ;;
  _ <- assert (py_in action legal) ;;
  let f := view L w in
  let f' :=
    if String.eqb (name action) "up" then set_xy (x f) (y f + 1) f
    else if String.eqb (name action) "right" then set_xy (x f + 1) (y f) f
    else if String.eqb (name action) "left" then set_xy (x f - 1) (y f) f
    else f in
  let w' := update L f' w in
  if y f' =? length f' then
    if x f' =? goal_x f' then Ok (PInt 10, w')
    else if x f' =? - goal_x f' then Ok (PInt (-10), w')
    else Ok (PInt (-1), w')
  else if String.eqb (name action) "gate" then Ok (PFloat gate_penalty, w')
  else Ok (PInt (-1), w').

Definition methods : Env W := {|
  Environment.get_state := get_state;
  Environment.get_observation := get_observation;
  Environment.get_actions := get_actions;
  Environment.reset := reset;
  Environment.new_episode := new_episode;
  Environment.react := react
|}.
End Methods.

Definition class : Class fields := fun W L self => methods L self.

End TMaze.

(** ** [gating_memory] *)

Module GatingMemory.

(** The attributes of a [GatingMemoryMetaEnvironment(cls)] object: those
    of [cls] and the memory slots.  [reward] and [num_memory_slots] are
    assigned once in [__init__], from the arguments of [gating_memory],
    and never again: they are parameters below. *)
Record fields (F : Type) : Type := mkFields {
  base : F;
  memories : list value
}.

Arguments mkFields {F} base memories.

Definition base_lens (F : Type) : Lens (fields F) F :=
  {| view := fun g => base g;
     update := fun f g => mkFields f (memories g) |}.

Definition set_memories {F : Type} (m : list value) (g : fields F) : fields F :=
  mkFields (base g) m.

(** ['memory_{}'.format(i)] *)
Definition memory_name (i : nat) : string :=
  "memory_" ++ NilZero.string_of_uint (Nat.to_uint i).

(** [Action('gate', slot=slot_num, attribute=k)] *)
Definition gate (slot_num : Z) (k : string) : Action :=
  mkAction "gate" [("slot", VInt slot_num); ("attribute", VStr k)].

(** [l[i] = v] for a Python integer index: a negative one counts from
    the end. *)
Definition list_setitem {A : Type} (l : list A) (i : Z) (v : A) : result (list A) :=
  let n := Z.of_nat (List.length l) in
  let j := if i <? 0 then i + n else i in
  if (0 <=? j) && (j <? n) then
    Ok (firstn (Z.to_nat j) l ++ v :: skipn (Datatypes.S (Z.to_nat j)) l)
  else Raise IndexError.

Section Methods.
Context {F : Type} (cls : Class F) (reward : pynum) (num_memory_slots : nat).
Context {W : Type} (L : Lens W (fields F)) (self : Env W).

(** [super()]: the methods of [cls], run on this object. *)
Definition super : Env W := @cls W (lens_compose L (base_lens F)) self.

(** [GatingMemoryMetaEnvironment.__init__], after [super().__init__] *)
Definition fresh_memories : list value := repeat VNone num_memory_slots.

(** The body shared by [get_state] and [get_observation]. *)
Definition with_memories (w : W) (st : observation) : observation :=
  match st with
  | None => None
  | Some st =>
      let state :=
        filter (fun kv => negb (String.prefix "memory_" (fst kv))) (as_dict st) in
      let memories :=
        combine (map memory_name (seq 0 num_memory_slots)) (memories (view L w)) in
      Some (mkAttrDict KAttrDict (memories ++ state))
  end.

Definition get_state (w : W) : result observation :=
  state <- Environment.get_state super w ;;
  Ok (with_memories w state).

Definition get_observation (w : W) : result observation :=
  obs <- Environment.get_observation super w ;;
  Ok (with_memories w obs).

(** The gate actions appended for one slot. *)
Definition gates_of_slot (observations : AttrDict) (slot_num : nat) : list Action :=
  flat_map (fun kv => if String.eqb (fst kv) "memory" then []
                      else [gate (Z.of_nat slot_num) (fst kv)])
           (_attributes_ observations).

Definition get_actions (w : W) : result (list Action) :=
  actions <- Environment.get_actions super w ;;
  observations <- Environment.get_observation super w ;;
  match observations with
  | None => Ok actions
  | Some observations =>
      Ok (actions ++ flat_map (gates_of_slot observations) (seq 0 num_memory_slots))
  end.

Definition reset (w : W) : result W :=
  w' <- Environment.reset super w ;;
  Ok (update L (set_memories fresh_memories (view L w')) w').

Definition new_episode (w : W) : result W :=
  w' <- Environment.new_episode super w ;;
  Ok (update L (set_memories fresh_memories (view L w')) w').

Definition react (w : W) (action : Action) : result (pynum * W) :=
  if String.eqb (name action) "gate" then
    obs <- Environment.get_observation super w ;;
    attribute <- Action_getattr action "attribute" ;;
    v <- match attribute with
         | VStr nm => getattr obs nm
         | _ => Raise TypeError
         end ;;
    slot <- Action_getattr action "slot" ;;
    m <- match slot with
         | VInt i => list_setitem (memories (view L w)) i v
         | _ => Raise TypeError
         end ;;
    Ok (reward, update L (set_memories m (view L w)) w)
  else Environment.react super w action.

Definition methods : Env W := {|
  Environment.get_state := get_state;
  Environment.get_observation := get_observation;
  Environment.get_actions := get_actions;
  Environment.reset := reset;
  Environment.new_episode := new_episode;
  Environment.react := react
|}.
End Methods.

(** [gating_memory(cls, reward, num_memory_slots)] *)
Definition class {F : Type} (cls : Class F) (reward : pynum)
    (num_memory_slots : nat) : Class (fields F) :=
  fun W L self => methods cls reward num_memory_slots L self.

(** [GatingMemoryMetaEnvironment.__init__]: the attributes the
    constructor of [cls] leaves, and the empty memory slots. *)
Definition __init__ {F : Type} (num_memory_slots : nat) (f : F) : fields F :=
  mkFields f (fresh_memories num_memory_slots).

End GatingMemory.

(** ** An argument for [gating_memory] with a single observed field

    [GridWorld] observes two fields and [TMaze] three.  [Track] is the
    one-field environment used to exercise the wrapper: a walk along a
    line to [goal], written the way the two environments of the source
    are ([get_observation] returns [self.get_state()], [reset] calls
    [self.new_episode()], [react] asserts against
    [self.get_actions()]). *)

Module Track.

Record fields : Type := mkFields {
  goal : Z;
  pos : Z
}.

Definition forward : Action := mkAction "forward" [].

Section Methods.
Context {W : Type} (L : Lens W fields) (self : Env W).

Definition get_state (w : W) : result observation :=
  let f := view L w in
  if pos f =? goal f then Ok None
  else Ok (Some (State [("pos", VInt (pos f))])).

Definition get_observation (w : W) : result observation :=
  Environment.get_state self w.

Definition get_actions (w : W) : result (list Action) := Ok [forward].

Definition new_episode (w : W) : result W :=
  Ok (update L (mkFields (goal (view L w)) 0) w).

Definition reset (w : W) : result W :=
  Environment.new_episode self w.

Definition react (w : W) (action : Action) : result (pynum * W) :=
  legal <- Environment.get_actions self w ;;
  _ <- assert (py_in action legal) ;;
  let f := view L w in
  if pos f =? goal f then Ok (PInt 1, w)
  else Ok (PInt (-1), update L (mkFields (goal f) (pos f + 1)) w).

Definition methods : Env W := {|
  Environment.get_state := get_state;
  Environment.get_observation := get_observation;
  Environment.get_actions := get_actions;
  Environment.reset := reset;
  Environment.new_episode := new_episode;
  Environment.react := react
|}.
End Methods.

Definition class : Class fields := fun W L self => methods L self.

End Track.

(** ** [get_parameters] (pspace_run.py) *)

(** [l[start:stop]] for Python integers: a negative bound counts from
    the end, and both are clamped to the list. *)
Definition py_slice {A : Type} (l : list A) (start stop : Z) : list A :=
  let n := Z.of_nat (List.length l) in
  let clamp i := Z.max 0 (Z.min n (if i <? 0 then i + n else i)) in
  firstn (Z.to_nat (clamp stop - clamp start)) (skipn (Z.to_nat (clamp start)) l).

(** [get_parameters(pspace, num_cores, core)], on [list(pspace)].
    [//] and [%] are floor division and its remainder, as [Z.div] and
    [Z.modulo] are; a zero divisor raises. *)
Definition get_parameters {A : Type} (pspace : list A) (num_cores core : Z)
    : result (list A) :=
  let parameters := pspace in
  if num_cores =? 0 then Raise ZeroDivisionError
  else
    let chunk_size := Z.of_nat (List.length parameters) / num_cores in
    let remainders := Z.of_nat (List.length parameters) mod num_cores in
    let start := chunk_size * core + Z.min core remainders in
    let end_ := chunk_size * (core + 1) + Z.min (core + 1) remainders in
    Ok (py_slice parameters start end_).

(** The index range the specification gives worker [i]. *)
Definition spec_start (total n i : Z) : Z := (total / n) * i + Z.min i (total mod n).
Definition spec_end (total n i : Z) : Z :=
  (total / n) * (i + 1) + Z.min (i + 1) (total mod n).

(** The elements of [l] at the indices [lo, hi). *)
Definition index_range {A : Type} (l : list A) (lo hi : Z) : list A :=
  firstn (Z.to_nat (hi - lo)) (skipn (Z.to_nat lo) l).

(** The slices of the workers [0 .. n-1], in order. *)
Definition all_slices {A : Type} (pspace : list A) (num_cores : nat)
    : list (result (list A)) :=
  map (fun i => get_parameters pspace (Z.of_nat num_cores) (Z.of_nat i))
      (seq 0 num_cores).

Definition ok_or_nil {A : Type} (r : result (list A)) : list A :=
  match r with Ok l => l | Raise _ => [] end.

(** ** The value function as a mapping

    What the statements about the agent say of a table, without the
    agent: the stored items, [Q] with its default, the valued actions
    and the maximum over them. *)

Section ValueFunction.
Context {R : Type} `{PyNumber R}.

(** The estimate stored for [(o, a)], if one is. *)
Definition stored (vf : table R) (o : observation) (a : action_opt) : option R :=
  match dict_get obs_key_eqb o vf with
  | Some r => dict_get act_key_eqb a r
  | None => None
  end.

(** [Q(o, a)]: the stored estimate, and [0] for an item never written. *)
Definition Q (vf : table R) (o : observation) (a : action_opt) : R :=
  match stored vf o a with
  | Some v => v
  | None => zero
  end.

(** The actions with a stored estimate at [o], in insertion order. *)
Definition valued (vf : table R) (o : observation) : list action_opt :=
  match dict_get obs_key_eqb o vf with
  | Some r => dict_keys r
  | None => []
  end.

(** The first action of [l] (after [best]) whose value no later action
    exceeds strictly. *)
Fixpoint argmax (val : action_opt -> R) (best : action_opt) (l : list action_opt)
    : action_opt :=
  match l with
  | [] => best
  | a :: l' => if gtb (val a) (val best) then argmax val a l' else argmax val best l'
  end.

Definition best_action (vf : table R) (o : observation) : action_opt :=
  match valued vf o with
  | [] => None
  | a :: l => argmax (Q vf o) a l
  end.

(** [max_a Q(o, a)] over the valued actions of [o]; [0] when there are
    none. *)
Definition max_Q (vf : table R) (o : observation) : R :=
  match valued vf o with
  | [] => zero
  | a :: l => Q vf o (argmax (Q vf o) a l)
  end.

(** [(1 - alpha) * prev_value + alpha * (reward + gamma * best)] *)
Definition q_update (alpha gamma prev_value best reward : R) : R :=
  add (mul (sub one alpha) prev_value) (mul alpha (add reward (mul gamma best))).

(** No row of the table is keyed by the terminal marker. *)
Definition no_terminal_key (vf : table R) : Prop :=
  ~ In None (dict_keys vf).

(** The comparison behaves as an order: nothing exceeds itself, and
    what does not exceed [m] does not exceed anything above [m]. *)
Definition ordered : Prop :=
  (forall x : R, gtb x x = false)
  /\ (forall x m m' : R, gtb x m = false -> gtb m' m = true -> gtb x m' = false).
(** What a method leaves alone: the rates, the previous pair and the
    observations that have a row. *)
Definition same_frame (ag ag' : TabularQLearningAgent R) : Prop :=
  learning_rate ag' = learning_rate ag
  /\ discount_rate ag' = discount_rate ag
  /\ prev_observation ag' = prev_observation ag
  /\ prev_action ag' = prev_action ag
  /\ dict_keys (value_function ag') = dict_keys (value_function ag).

(** The agent never holds a previous action without the observation it
    was chosen at, and no row is keyed by the terminal marker. *)
Definition agent_inv (ag : TabularQLearningAgent R) : Prop :=
  no_terminal_key (value_function ag)
  /\ (prev_action ag <> None -> prev_observation ag <> None).
End ValueFunction.

(** ** The job launcher (pspace_run.py)

    [import_variable], the printing and [clusterun.run_cli] are outside
    the model: a parameter space is the list of its parameter sets, and
    an experiment is what it does to the state of the world [St]. *)



(** The values of the job variable [cores] in [generate_jobs]:
    [list(range(min(len(pspace), num_cores)))]. *)
Definition job_cores {A : Type} (pspace : list A) (num_cores : Z) : list Z :=
  map Z.of_nat (seq 0 (Z.to_nat (Z.min (Z.of_nat (List.length pspace)) num_cores))).

Section Experiment.
Context {A St : Type} (experiment_fn : A -> St -> St).

(** [run_serial]: the experiment on every parameter set, in order. *)
Definition run_serial (pspace : list A) (s : St) : St :=
  fold_left (fun s params => experiment_fn params s) pspace s.

(** [run_job]: the experiment on the parameter sets of one core. *)
Definition run_job (pspace : list A) (num_cores core : Z) (s : St) : result St :=
  parameter_sets <- get_parameters pspace num_cores core ;;
  Ok (fold_left (fun s params => experiment_fn params s) parameter_sets s).

(** The jobs of [cores], one after the other. *)
Fixpoint run_jobs (pspace : list A) (num_cores : Z) (cores : list Z) (s : St)
    : result St :=
  match cores with
  | [] => Ok s
  | c :: cores' =>
      s' <- run_job pspace num_cores c s ;;
      run_jobs pspace num_cores cores' s'
  end.
End Experiment.

(** ** Sequences of [react] calls *)

(** The rewards of [actions], fed to [react] one after the other, and
    the object afterwards. *)
Fixpoint react_all {W : Type} (env : Env W) (w : W) (actions : list Action)
    : result (list pynum * W) :=
  match actions with
  | [] => Ok ([], w)
  | a :: actions' =>
      rw <- react env w a ;;
      rest <- react_all env (snd rw) actions' ;;
      Ok (fst rw :: fst rest, snd rest)
  end.

(** ** Where the environments keep their position *)

(** The assignments [GridWorld.react] makes for an action, away from
    the goal. *)
Definition gridworld_moved (action : Action) (f : GridWorld.fields)
    : GridWorld.fields :=
  if String.eqb (name action) "up" then
    GridWorld.set_row (Z.max 0 (GridWorld.row f - 1)) f
  else if String.eqb (name action) "down" then
    GridWorld.set_row (Z.min (GridWorld.height f - 1) (GridWorld.row f + 1)) f
  else if String.eqb (name action) "left" then
    GridWorld.set_col (Z.max 0 (GridWorld.col f - 1)) f
  else if String.eqb (name action) "right" then
    GridWorld.set_col (Z.min (GridWorld.width f - 1) (GridWorld.col f + 1)) f
  else f.

(** The position is a cell of the grid. *)
Definition in_grid (f : GridWorld.fields) : Prop :=
  0 <= GridWorld.row f < GridWorld.height f
  /\ 0 <= GridWorld.col f < GridWorld.width f.

(** The dimensions, the start and the goal are those of [f]. *)
Definition same_grid (f f' : GridWorld.fields) : Prop :=
  GridWorld.width f' = GridWorld.width f
  /\ GridWorld.height f' = GridWorld.height f
  /\ GridWorld.start f' = GridWorld.start f
  /\ GridWorld.goal f' = GridWorld.goal f.

(** The position is in the corridor, or on one side of the junction,
    and the goal is one of the two sides. *)
Definition in_maze (f : TMaze.fields) : Prop :=
  0 <= TMaze.y f <= TMaze.length f
  /\ (TMaze.x f = 0
      \/ ((TMaze.x f = 1 \/ TMaze.x f = -1) /\ TMaze.y f = TMaze.length f))
  /\ (TMaze.goal_x f = 1 \/ TMaze.goal_x f = -1).

(** The arguments [TMaze.__init__] accepts. *)
Definition tmaze_config_ok (length hint_pos : Z) (hint_pos_2 : option Z)
    (redundant : bool) : bool :=
  (0 <=? hint_pos) && (hint_pos <=? length)
  && match hint_pos_2 with
     | Some h2 => (0 <=? h2) && (h2 <=? length)
     | None => true
     end
  && (negb redundant
      || ((3 <=? length)
          && match hint_pos_2 with Some _ => true | None => false end)).

(** The side of the junction at [x = side]. *)
Definition side_action (side : Z) : Action :=
  if side =? 1 then TMaze.right else TMaze.left.

(** ** [TMaze.visualize] *)

(** [seq[i]] for a Python integer index: a negative one counts from the
    end. *)
Definition py_getitem {A : Type} (l : list A) (i : Z) : result A :=
  let n := Z.of_nat (List.length l) in
  let j := if i <? 0 then i + n else i in
  if (0 <=? j) && (j <? n) then getitem l (Z.to_nat j) else Raise IndexError.

(** [lines[i][j] = c]: the list [lines[i]] is changed in place. *)
Definition set_cell (lines : list (list ascii)) (i j : Z) (c : ascii)
    : result (list (list ascii)) :=
  line <- py_getitem lines i ;;
  line' <- GatingMemory.list_setitem line j c ;;
  GatingMemory.list_setitem lines i line'.

(** The list [lines] of [TMaze.visualize] before it is joined: one list
    of three one-character strings per value of [y], the far end of the
    corridor first. *)
Definition tmaze_visualize_lines (f : TMaze.fields) : result (list (list ascii)) :=
  let lines :=
    repeat [" "; "_"; " "]%char (Z.to_nat (TMaze.length f + 1)) in
  lines <- set_cell lines 0 (1 + TMaze.goal_x f) "$" ;;
  lines <- set_cell lines 0 (1 - TMaze.goal_x f) "#" ;;
  lines <- set_cell lines (TMaze.length f - TMaze.y f) 1 "*" ;;
  lines <- set_cell lines (TMaze.length f - TMaze.hint_pos f) 1 "!" ;;
  match TMaze.hint_pos_2 f with
  | Some h2 => set_cell lines (TMaze.length f - h2) 1 "?"
  | None => Ok lines
  end.

(** [TMaze.visualize] *)
Definition tmaze_visualize (f : TMaze.fields) : result string :=
  lines <- tmaze_visualize_lines f ;;
  Ok (String.concat (String "010" EmptyString) (map string_of_list_ascii lines)).

(** The character at line [i], column [j]. *)
Definition cell (lines : list (list ascii)) (i j : nat) : option ascii :=
  match nth_error lines i with
  | Some line => nth_error line j
  | None => None
  end.

(** [n] lines of three characters. *)
Definition is_picture (lines : list (list ascii)) (n : nat) : Prop :=
  List.length lines = n /\ (forall i line, nth_error lines i = Some line ->
                                            List.length line = 3%nat).

(** ** Concrete objects used in the examples *)

(** [GridWorld(3, 1, (0,0), (0,2))] after [__init__] *)
Definition grid_3x1 : GridWorld.fields :=
  GridWorld.mkFields 3 1 [0; 0] [0; 2] 0 0.

(** A generator whose every draw is [0]: [choice] takes the first item. *)
Definition first_item_rng : TMaze.rng := TMaze.mkRng (fun _ => 0%nat) 0.

(** [TMaze(3, 1)] drawn with [first_item_rng] (so [goal_x = -1]), moved
    to the junction. *)
Definition tmaze_junction : TMaze.fields :=
  TMaze.set_xy 0 3 (TMaze.draw_episode 3 1 None false first_item_rng).

(** The same maze after the step to the left of the junction. *)
Definition tmaze_junction_left : TMaze.fields :=
  TMaze.set_xy (-1) 3 (TMaze.draw_episode 3 1 None false first_item_rng).

(** A generator whose every draw is [1]: [choice] takes the second item. *)
Definition second_item_rng : TMaze.rng := TMaze.mkRng (fun _ => 1%nat) 0.

(** [Track] with the goal three steps ahead *)
Definition track_3 : Track.fields := Track.mkFields 3 0.

(** Two [GridWorld] observations, and an agent with [alpha = 0.5] and
    [gamma = 0.9] that has been at [cell_00] twice: it holds one
    estimate there, for [up], and its previous action there is
    [right]. *)
Definition cell_00 : observation := Some (State [("row", VInt 0); ("col", VInt 0)]).
Definition cell_01 : observation := Some (State [("row", VInt 0); ("col", VInt 1)]).

(** The literals [0.5] and [0.9], as binary64 *)
Definition one_half : float := 0.5%float.
Definition nine_tenths : float := 0x1.ccccccccccccdp-1%float.

Definition revisiting_agent : TabularQLearningAgent float :=
  run_calls [CallForceAct cell_00 (Some GridWorld.up) None;
             CallForceAct cell_01 (Some GridWorld.left) (Some (-5)%float);
             CallForceAct cell_00 (Some GridWorld.right) (Some (-1)%float)]
            (init one_half nine_tenths).

(** A fresh agent after one action, [right] at [cell_00]. *)
Definition first_step_agent : TabularQLearningAgent float :=
  snd (force_act cell_00 (Some GridWorld.right) None (init one_half nine_tenths)).

(** * Properties *)

(** ** The parameter sweep: [get_parameters] *)

Section Partition.
Variable total n : Z.
Hypothesis Htotal : 0 <= total.
Hypothesis Hn : 0 < n.

Let q := total / n.
Let r := total mod n.

Lemma chunk_remainder : total = n * q + r /\ 0 <= r < n /\ 0 <= q.
Proof.
  subst q r. split; [apply Z.div_mod; lia|].
  split; [apply Z.mod_pos_bound; lia | apply Z.div_pos; lia].
Qed.

Lemma spec_start_0 : spec_start total n 0 = 0.
Proof.
  unfold spec_start. destruct chunk_remainder as (_ & Hr & _). fold r. lia.
Qed.

Lemma spec_end_last : spec_end total n (n - 1) = total.
Proof.
  unfold spec_end. destruct chunk_remainder as (E & Hr & _). fold q r.
  replace (n - 1 + 1) with n by lia. lia.
Qed.

Lemma spec_end_next i : spec_end total n i = spec_start total n (i + 1).
Proof. reflexivity. Qed.

Lemma spec_range_bounds i :
  0 <= i < n ->
  0 <= spec_start total n i <= spec_end total n i /\ spec_end total n i <= total.
Proof.
  intros Hi. unfold spec_start, spec_end.
  destruct chunk_remainder as (E & Hr & Hq). fold q r.
  assert (0 <= q * i) by nia.
  assert (q * (i + 1) = q * i + q) by lia.
  assert (q * (i + 1) <= q * n) by nia.
  lia.
Qed.

Lemma spec_range_size i :
  0 <= i < n ->
  spec_end total n i - spec_start total n i = q + (if i <? r then 1 else 0).
Proof.
  intros Hi. unfold spec_start, spec_end. fold q r.
  destruct (Z.ltb_spec i r); lia.
Qed.

Lemma spec_start_mono i j :
  0 <= i -> i <= j -> spec_start total n i <= spec_start total n j.
Proof.
  intros Hi Hij. unfold spec_start. fold q r.
  destruct chunk_remainder as (_ & _ & Hq).
  assert (q * i <= q * j) by nia. lia.
Qed.
End Partition.

Lemma firstn_plus {A : Type} (a c : nat) (l : list A) :
  firstn (a + c) l = firstn a l ++ firstn c (skipn a l).
Proof.
  revert l. induction a as [|a IH]; intros l; simpl; [reflexivity|].
  destruct l as [|x l]; simpl.
  - now rewrite firstn_nil.
  - now rewrite IH.
Qed.

Lemma index_range_glue {A : Type} (l : list A) (a b : Z) :
  0 <= a <= b ->
  firstn (Z.to_nat a) l ++ index_range l a b = firstn (Z.to_nat b) l.
Proof.
  intros H. unfold index_range. rewrite <- firstn_plus. f_equal. lia.
Qed.

Lemma py_slice_in_range {A : Type} (l : list A) (lo hi : Z) :
  0 <= lo <= hi -> hi <= Z.of_nat (List.length l) ->
  py_slice l lo hi = index_range l lo hi.
Proof.
  intros H1 H2. unfold py_slice, index_range.
  destruct (Z.ltb_spec lo 0); [lia|]. destruct (Z.ltb_spec hi 0); [lia|].
  rewrite !Z.min_r, !Z.max_r by lia. reflexivity.
Qed.

Lemma get_parameters_in_range {A : Type} (pspace : list A) (n i : Z) :
  0 < n -> 0 <= i < n ->
  get_parameters pspace n i =
  Ok (index_range pspace (spec_start (Z.of_nat (List.length pspace)) n i)
                         (spec_end (Z.of_nat (List.length pspace)) n i)).
Proof.
  intros Hn Hi. unfold get_parameters.
  destruct (Z.eqb_spec n 0); [lia|].
  f_equal. fold (spec_start (Z.of_nat (List.length pspace)) n i).
  fold (spec_end (Z.of_nat (List.length pspace)) n i).
  pose proof (@spec_range_bounds (Z.of_nat (List.length pspace)) n
                ltac:(lia) Hn i Hi).
  apply py_slice_in_range; lia.
Qed.

Lemma slices_prefix {A : Type} (pspace : list A) (n : nat) (k : nat) :
  (0 < n)%nat -> (k <= n)%nat ->
  List.concat (map (fun i => ok_or_nil (get_parameters pspace (Z.of_nat n) (Z.of_nat i)))
              (seq 0 k))
  = firstn (Z.to_nat (spec_start (Z.of_nat (List.length pspace)) (Z.of_nat n)
                                 (Z.of_nat k))) pspace.
Proof.
  intros Hn. induction k as [|k IH]; intros Hk.
  - simpl. rewrite spec_start_0 by lia. reflexivity.
  - rewrite seq_S, map_app, List.concat_app, IH by lia.
    cbn [map List.concat Nat.add]. rewrite app_nil_r.
    rewrite get_parameters_in_range by lia. cbn [ok_or_nil].
    pose proof (@spec_range_bounds (Z.of_nat (List.length pspace)) (Z.of_nat n)
                  ltac:(lia) ltac:(lia) (Z.of_nat k) ltac:(lia)) as B.
    rewrite spec_end_next in *.
    replace (Z.of_nat (Datatypes.S k)) with (Z.of_nat k + 1) by lia.
    apply index_range_glue. lia.
Qed.

(** C9.  For a collection of [total] parameters and [N >= 1] workers,
    [get_parameters] gives worker [i] (with [0 <= i < N]) exactly the
    elements at the indices
    [chunk*i + min(i, remainder), chunk*(i+1) + min(i+1, remainder)),
    a range that lies within the collection; the ranges of successive
    workers adjoin and those of distinct workers do not overlap, worker
    [i] receives [chunk + 1] elements when [i < remainder] and [chunk]
    otherwise, and the [N] slices concatenated in worker order are the
    whole collection. *)
Theorem get_parameters_partition {A : Type} (pspace : list A) (N : nat) :
  (0 < N)%nat ->
  let total := Z.of_nat (List.length pspace) in
  let n := Z.of_nat N in
  (forall i, 0 <= i < n ->
     get_parameters pspace n i
       = Ok (index_range pspace (spec_start total n i) (spec_end total n i))
     /\ 0 <= spec_start total n i <= spec_end total n i
     /\ spec_end total n i <= total
     /\ Z.of_nat (List.length (ok_or_nil (get_parameters pspace n i)))
          = total / n + (if i <? total mod n then 1 else 0))
  /\ (forall i j, 0 <= i -> i < j -> j < n ->
        spec_end total n i <= spec_start total n j)
  /\ (forall i, spec_end total n i = spec_start total n (i + 1))
  /\ spec_start total n 0 = 0
  /\ spec_end total n (n - 1) = total
  /\ List.concat (map ok_or_nil (all_slices pspace N)) = pspace.
Proof.
  intros HN total n.
  assert (Ht : 0 <= total) by (subst total; lia).
  assert (Hn : 0 < n) by (subst n; lia).
  repeat split.
  - now apply get_parameters_in_range.
  - now apply spec_range_bounds.
  - now apply spec_range_bounds.
  - now apply spec_range_bounds.
  - rewrite get_parameters_in_range by assumption. simpl.
    unfold index_range. rewrite length_firstn, length_skipn.
    pose proof (@spec_range_bounds total n Ht Hn i H) as B.
    pose proof (@spec_range_size total n i H) as Sz.
    fold total. lia.
  - intros i j Hi Hij Hj. rewrite spec_end_next.
    apply spec_start_mono; lia.
  - now apply spec_start_0.
  - now apply spec_end_last.
  - unfold all_slices. rewrite map_map.
    rewrite slices_prefix by lia. fold total n.
    pose proof (@spec_end_last total n Ht Hn) as E.
    unfold spec_end in E. replace (n - 1 + 1) with n in E by lia.
    unfold spec_start. rewrite E. subst total.
    rewrite Nat2Z.id. apply firstn_all.
Qed.

Lemma get_parameters_partition_witness :
  get_parameters [10; 20; 30; 40; 50] 3 0 = Ok [10; 20]
  /\ get_parameters [10; 20; 30; 40; 50] 3 1 = Ok [30; 40]
  /\ get_parameters [10; 20; 30; 40; 50] 3 2 = Ok [50]
  /\ List.concat (map ok_or_nil (all_slices [10; 20; 30; 40; 50] 3))
     = [10; 20; 30; 40; 50].
Proof.
  pose proof (@get_parameters_partition Z [10; 20; 30; 40; 50] 3%nat
                ltac:(lia)) as (Hs & _ & _ & _ & _ & Hc).
  split; [|split; [|split]].
  - destruct (Hs 0 ltac:(lia)) as (E & _). exact E.
  - destruct (Hs 1 ltac:(lia)) as (E & _). exact E.
  - destruct (Hs 2 ltac:(lia)) as (E & _). exact E.
  - exact Hc.
Defined.

(** ** [GridWorld] *)

Lemma grid_3x1_init : GridWorld.__init__ 3 1 [0; 0] [0; 2] = Ok grid_3x1.
Proof. reflexivity. Qed.

Lemma gridworld_get_actions_depth (n : nat) (f : GridWorld.fields) :
  get_actions (object GridWorld.class (Datatypes.S n)) f
  = GridWorld.get_actions (lens_id _) f.
Proof. reflexivity. Qed.

Lemma gridworld_react_depth (n : nat) (f : GridWorld.fields) (a : Action) :
  react (object GridWorld.class (2 + n)) f a
  = GridWorld.react (lens_id _) (GridWorld.methods (lens_id _) (abstract _)) f a.
Proof. reflexivity. Qed.

(** C2, as the claim states it: the rewards of [right, right] are not
    [-1, +1]. *)
Lemma gridworld_right_right_not_plus_one :
  ~ (exists w1 w2,
       react (object GridWorld.class 2) grid_3x1 GridWorld.right = Ok (PInt (-1), w1)
       /\ react (object GridWorld.class 2) w1 GridWorld.right = Ok (PInt 1, w2)
       /\ get_observation (object GridWorld.class 2) w2 = Ok None).
Proof.
  intros (w1 & w2 & H1 & H2 & _).
  vm_compute in H1. injection H1 as <-.
  vm_compute in H2. discriminate H2.
Qed.

(** C2, amended.  For [GridWorld(3, 1, (0,0), (0,2))], [react] on
    [right, right] returns the rewards [-1, -1] and leaves the
    environment at the goal, where [get_observation()] is the terminal
    marker; [+1] is the reward of a further [react], called at the
    goal, which does not move. *)
Theorem gridworld_right_right (n : nat) :
  let env := object GridWorld.class (2 + n) in
  let at_1 := GridWorld.set_col 1 grid_3x1 in
  let at_2 := GridWorld.set_col 2 grid_3x1 in
  GridWorld.__init__ 3 1 [0; 0] [0; 2] = Ok grid_3x1
  /\ react env grid_3x1 GridWorld.right = Ok (PInt (-1), at_1)
  /\ react env at_1 GridWorld.right = Ok (PInt (-1), at_2)
  /\ get_observation env at_2 = Ok None
  /\ react env at_2 GridWorld.left = Ok (PInt 1, at_2).
Proof. repeat split. Qed.

(** C3.  At a position with [row >= 0] and [col >= 0] (every position
    of the grid), [get_actions] returns [up] and [left] whatever the
    position, also at row 0 and at column 0 where the move leaves the
    grid, and [down] and [right] only when the move stays inside. *)
Theorem gridworld_get_actions_boundary (n : nat) (f : GridWorld.fields) :
  0 <= GridWorld.row f -> 0 <= GridWorld.col f ->
  get_actions (object GridWorld.class (1 + n)) f
  = Ok ([GridWorld.up]
        ++ (if GridWorld.row f <? GridWorld.height f - 1 then [GridWorld.down] else [])
        ++ [GridWorld.left]
        ++ (if GridWorld.col f <? GridWorld.width f - 1 then [GridWorld.right] else [])).
Proof.
  intros Hr Hc. cbn [Nat.add]. rewrite gridworld_get_actions_depth.
  unfold GridWorld.get_actions. cbn [view lens_id].
  destruct (Z.geb_spec (GridWorld.row f) 0); [|lia].
  destruct (Z.geb_spec (GridWorld.col f) 0); [|lia].
  destruct (GridWorld.row f <? GridWorld.height f - 1);
    destruct (GridWorld.col f <? GridWorld.width f - 1); reflexivity.
Qed.

Lemma gridworld_get_actions_boundary_witness :
  get_actions (object GridWorld.class 1) grid_3x1
  = Ok [GridWorld.up; GridWorld.left; GridWorld.right].
Proof.
  exact (@gridworld_get_actions_boundary 0 grid_3x1 ltac:(simpl; lia) ltac:(simpl; lia)).
Defined.

(** What the assertion of [GridWorld.react] does check: an action that
    no element of [self.get_actions()] compares equal to is refused. *)
Lemma gridworld_react_asserts (n : nat) (f : GridWorld.fields) (a : Action)
    (legal : list Action) :
  get_actions (object GridWorld.class (1 + n)) f = Ok legal ->
  py_in a legal = false ->
  react (object GridWorld.class (2 + n)) f a = Raise AssertionError.
Proof.
  intros Hl Hin. rewrite gridworld_react_depth.
  cbn [Nat.add] in Hl. rewrite gridworld_get_actions_depth in Hl.
  unfold GridWorld.react.
  cbn [get_actions GridWorld.methods]. rewrite Hl. cbn [bind].
  rewrite Hin. reflexivity.
Qed.

(** C6.  [Action('down')] is not among the actions [get_actions()]
    returns at the start of [GridWorld(3, 1, (0,0), (0,2))], and
    [react] accepts it all the same, returning [-1]: membership is
    decided by [Action.__eq__], which ignores the name.  On the
    gating-memory wrapper, a [gate] action that [get_actions()] does not
    return (slot [-1]) is not checked at all and writes the last slot. *)
Theorem react_accepts_unlisted_action (n : nat) :
  let env := object GridWorld.class (2 + n) in
  let wrapped := object (GatingMemory.class GridWorld.class (PInt 0) 2) (3 + n) in
  let w := GatingMemory.__init__ 2 grid_3x1 in
  get_actions env grid_3x1 = Ok [GridWorld.up; GridWorld.left; GridWorld.right]
  /\ ~ In GridWorld.down [GridWorld.up; GridWorld.left; GridWorld.right]
  /\ react env grid_3x1 GridWorld.down = Ok (PInt (-1), grid_3x1)
  /\ (exists legal, get_actions wrapped w = Ok legal
        /\ py_in (GatingMemory.gate (-1) "row") legal = false
        /\ react wrapped w (GatingMemory.gate (-1) "row")
           = Ok (PInt 0, GatingMemory.mkFields grid_3x1 [VNone; VInt 0])).
Proof.
  intros env wrapped w. split; [reflexivity|]. split.
  - intros [H|[H|[H|[]]]]; discriminate H.
  - split; [reflexivity|]. eexists. split; [reflexivity|].
    split; reflexivity.
Qed.

(** ** [TMaze] *)

Lemma choose_sign_range (g : TMaze.rng) :
  fst (TMaze.choose_sign g) = 1 \/ fst (TMaze.choose_sign g) = -1.
Proof.
  unfold TMaze.choose_sign, choice. cbn [List.length].
  destruct (Nat.modulo (TMaze.draws g (TMaze.drawn g)) 2) as [|[|k]] eqn:E;
    cbn; auto.
  destruct k; cbn; auto.
Qed.

(** The hidden goal side is [1] or [-1] from construction on. *)
Lemma tmaze_init_goal_x (length hint_pos : Z) (hint_pos_2 : option Z)
    (redundant : bool) (g : TMaze.rng) (f : TMaze.fields) :
  TMaze.__init__ length hint_pos hint_pos_2 redundant g = Ok f ->
  TMaze.goal_x f = 1 \/ TMaze.goal_x f = -1.
Proof.
  unfold TMaze.__init__, assert. intros E.
  assert (E' : f = TMaze.draw_episode length hint_pos hint_pos_2 redundant g).
  { repeat match type of E with
           | context [if ?c then _ else _] => destruct c; cbn [bind] in E
           | context [match ?o with Some _ => _ | None => _ end] =>
               destruct o; cbn [bind] in E
           end; try discriminate E; now injection E as <-. }
  subst f. unfold TMaze.draw_episode.
  pose proof (choose_sign_range g) as Hs.
  destruct (TMaze.choose_sign g) as [gx g1].
  destruct (TMaze.choose_sign g1) as [lc g2]. exact Hs.
Qed.

(** C7.  In [TMaze], with the hidden [goal_x] one of [1] and [-1], for
    an action of [get_actions()] the call [react] succeeds, and its
    reward is [+10] exactly when the position reached has [y = length]
    and [x = goal_x], [-10] when it has [y = length] and [x = -goal_x],
    and [-1] in every other case; a forward step ([up]) is such a
    case. *)
Theorem tmaze_react_reward (n : nat) (f : TMaze.fields) (action : Action)
    (legal : list Action) :
  TMaze.goal_x f = 1 \/ TMaze.goal_x f = -1 ->
  get_actions (object TMaze.class (1 + n)) f = Ok legal ->
  In action legal ->
  exists (r : pynum) (f' : TMaze.fields),
    react (object TMaze.class (2 + n)) f action = Ok (r, f')
    /\ TMaze.goal_x f' = TMaze.goal_x f /\ TMaze.length f' = TMaze.length f
    /\ (r = PInt 10 <->
        TMaze.y f' = TMaze.length f /\ TMaze.x f' = TMaze.goal_x f)
    /\ (TMaze.y f' = TMaze.length f /\ TMaze.x f' = - TMaze.goal_x f ->
        r = PInt (-10))
    /\ (~ (TMaze.y f' = TMaze.length f /\ TMaze.x f' = TMaze.goal_x f) ->
        ~ (TMaze.y f' = TMaze.length f /\ TMaze.x f' = - TMaze.goal_x f) ->
        r = PInt (-1))
    /\ (action = TMaze.up ->
        r = PInt (-1) /\ TMaze.y f' = TMaze.y f + 1 /\ TMaze.x f' = TMaze.x f).
Proof.
  intros Hg Hl Hin.
  change (get_actions (object TMaze.class (1 + n)) f)
    with (TMaze.get_actions (lens_id _) f) in Hl.
  change (react (object TMaze.class (2 + n)) f action)
    with (TMaze.react (lens_id _) (TMaze.methods (lens_id _) (abstract _)) f action).
  unfold TMaze.react. cbn [get_actions TMaze.methods]. rewrite Hl. cbn [bind].
  unfold TMaze.get_actions in Hl. cbn [view lens_id] in *.
  assert (Hcases :
    (action = TMaze.up /\ TMaze.x f = 0 /\ TMaze.y f < TMaze.length f)
    \/ ((action = TMaze.left \/ action = TMaze.right)
        /\ TMaze.x f = 0 /\ TMaze.y f = TMaze.length f)
    \/ (action = TMaze.halt /\ TMaze.x f <> 0)).
  { destruct (Z.eqb_spec (TMaze.x f) 0).
    - destruct (Z.ltb_spec (TMaze.y f) (TMaze.length f)).
      + injection Hl as <-. destruct Hin as [<-|[]]. auto.
      + destruct (Z.eqb_spec (TMaze.y f) (TMaze.length f)).
        * injection Hl as <-. destruct Hin as [<-|[<-|[]]]; auto.
        * injection Hl as <-. destruct Hin.
    - injection Hl as <-. destruct Hin as [<-|[]]. auto. }
  assert (Hpy : py_in action legal = true).
  { unfold py_in. apply existsb_exists. exists action. split; [assumption|].
    destruct Hcases as [(-> & _)|[([-> | ->] & _)|(-> & _)]]; reflexivity. }
  rewrite Hpy. cbn [assert bind].
  destruct Hcases as [(-> & Hx & Hy)|[([-> | ->] & Hx & Hy)|(-> & Hx)]];
    cbn [name TMaze.up TMaze.left TMaze.right TMaze.halt String.eqb Ascii.eqb
         Bool.eqb andb update lens_id TMaze.set_xy
         TMaze.x TMaze.y TMaze.length TMaze.goal_x];
    repeat match goal with
           | |- context [?a =? ?b] => destruct (Z.eqb_spec a b)
           end;
    eexists; eexists; (split; [reflexivity|]);
    cbn [TMaze.x TMaze.y TMaze.length TMaze.goal_x TMaze.set_xy];
    repeat split; intros;
    try discriminate; try congruence; try lia;
    try match goal with
        | H : _ /\ _ |- _ => destruct H
        end; try lia; try tauto.
Qed.

(** [TMaze.react] refuses an action that no element of
    [self.get_actions()] compares equal to. *)
Lemma tmaze_react_asserts (n : nat) (f : TMaze.fields) (a : Action)
    (legal : list Action) :
  get_actions (object TMaze.class (1 + n)) f = Ok legal ->
  py_in a legal = false ->
  react (object TMaze.class (2 + n)) f a = Raise AssertionError.
Proof.
  intros Hl Hin.
  change (get_actions (object TMaze.class (1 + n)) f)
    with (TMaze.get_actions (lens_id _) f) in Hl.
  change (react (object TMaze.class (2 + n)) f a)
    with (TMaze.react (lens_id _) (TMaze.methods (lens_id _) (abstract _)) f a).
  unfold TMaze.react. cbn [get_actions TMaze.methods].
  rewrite Hl. cbn [bind]. rewrite Hin. reflexivity.
Qed.

Lemma tmaze_react_reward_witness :
  exists (r : pynum) (f' : TMaze.fields),
    react (object TMaze.class 2) tmaze_junction TMaze.left = Ok (r, f')
    /\ (r = PInt 10 <->
        TMaze.y f' = TMaze.length tmaze_junction
        /\ TMaze.x f' = TMaze.goal_x tmaze_junction).
Proof.
  destruct (@tmaze_react_reward 0 tmaze_junction TMaze.left
              [TMaze.left; TMaze.right]
              (or_intror eq_refl) eq_refl (or_introl eq_refl))
    as (r & f' & H & _ & _ & H10 & _).
  exists r, f'. split; assumption.
Defined.

(** ** [gating_memory] *)

Section GatingMemoryFacts.
Context {F : Type} (cls : Class F) (reward : pynum) (k : nat).
Context {W : Type} (L : Lens W (GatingMemory.fields F)) (self : Env W).

Let super := GatingMemory.super cls L self.
Let wrapper := GatingMemory.methods cls reward k L self.

(** [get_actions] appends, to the actions of [super().get_actions()],
    one gate action per slot and per field of
    [super().get_observation()] that is not named ["memory"]. *)
Lemma gating_get_actions (w : W) (actions : list Action) (obs : AttrDict) :
  get_actions super w = Ok actions ->
  get_observation super w = Ok (Some obs) ->
  get_actions wrapper w
  = Ok (actions ++ flat_map (GatingMemory.gates_of_slot obs) (seq 0 k)).
Proof.
  intros Ha Ho. subst super wrapper.
  cbn [get_actions GatingMemory.methods]. unfold GatingMemory.get_actions.
  rewrite Ha. cbn [bind]. rewrite Ho. reflexivity.
Qed.

(** [react] on [gate(slot=0, attribute=X)]: slot 0 receives the value
    of field [X] of the current observation and the reward is the
    configured one; no other attribute of the object changes, and the
    [react] of the wrapped class plays no part. *)
Lemma gate_react_sets_slot (w : W) (obs : AttrDict) (X : string) (v m0 : value)
    (rest : list value) :
  get_observation super w = Ok (Some obs) ->
  attr_get X (_attributes_ obs) = Some v ->
  GatingMemory.memories (view L w) = m0 :: rest ->
  react wrapper w (GatingMemory.gate 0 X)
  = Ok (reward, update L (GatingMemory.set_memories (v :: rest) (view L w)) w).
Proof.
  intros Ho Hx Hm. subst super wrapper.
  cbn [react GatingMemory.methods]. unfold GatingMemory.react.
  cbn [name GatingMemory.gate String.eqb Ascii.eqb Bool.eqb].
  rewrite Ho. cbn [bind]. unfold Action_getattr.
  change (attr_get "attribute" (action_attributes (GatingMemory.gate 0 X)))
    with (Some (VStr X)).
  change (attr_get "slot" (action_attributes (GatingMemory.gate 0 X)))
    with (Some (VInt 0)).
  cbn [bind getattr]. unfold AttrDict_getattr. rewrite Hx. cbn [bind].
  rewrite Hm. reflexivity.
Qed.

(** [reset] resets the wrapped class and sets every slot to [None]. *)
Lemma gating_reset_clears (w w' : W) :
  reset super w = Ok w' ->
  reset wrapper w
  = Ok (update L (GatingMemory.set_memories (repeat VNone k) (view L w')) w').
Proof.
  intros Hr. subst super wrapper. cbn [reset GatingMemory.methods].
  unfold GatingMemory.reset. rewrite Hr. reflexivity.
Qed.
End GatingMemoryFacts.

(** C4.  With two memory slots over [Track], whose observation has the
    single field [pos], [get_actions()] returns six gate actions after
    the wrapped environment's own, not two: [Track.get_observation]
    returns [self.get_state()], which on the wrapper is the state with
    the fields [memory_0] and [memory_1], and [get_actions] skips a
    field named ["memory"] only.  Over [GridWorld] (two fields) there
    are eight.  A gate on [pos] into slot 0 stores the position and
    returns the configured reward, and [reset] clears the slots. *)
Theorem gating_memory_gate_actions (n : nat) (r_gate : pynum) :
  let env := object (GatingMemory.class Track.class r_gate 2) (3 + n) in
  let w := GatingMemory.__init__ 2 track_3 in
  get_observation (object Track.class (2 + n)) track_3
    = Ok (Some (State [("pos", VInt 0)]))
  /\ get_actions (object Track.class (2 + n)) track_3 = Ok [Track.forward]
  /\ get_actions env w
     = Ok [Track.forward;
           GatingMemory.gate 0 "memory_0"; GatingMemory.gate 0 "memory_1";
           GatingMemory.gate 0 "pos";
           GatingMemory.gate 1 "memory_0"; GatingMemory.gate 1 "memory_1";
           GatingMemory.gate 1 "pos"]
  /\ (exists actions,
        get_actions (object (GatingMemory.class GridWorld.class r_gate 2) (3 + n))
                    (GatingMemory.__init__ 2 grid_3x1) = Ok actions
        /\ List.length actions = (3 + 8)%nat)
  /\ react env w (GatingMemory.gate 0 "pos")
     = Ok (r_gate, GatingMemory.mkFields track_3 [VInt 0; VNone])
  /\ reset env (GatingMemory.mkFields track_3 [VInt 0; VNone]) = Ok w.
Proof.
  intros env w. repeat split.
  eexists. split; reflexivity.
Qed.

(** ** Key identity *)

Lemma value_eqb_eq (a b : value) : value_eqb a b = true <-> a = b.
Proof.
  destruct a, b; cbn; split; intros E; try discriminate; try reflexivity.
  - apply Z.eqb_eq in E. now subst.
  - injection E as ->. apply Z.eqb_refl.
  - apply String.eqb_eq in E. now subst.
  - injection E as ->. apply String.eqb_refl.
Qed.

Lemma opt_value_eqb_eq (a b : option value) :
  opt_eqb value_eqb a b = true <-> a = b.
Proof.
  destruct a, b; cbn; split; intros E; try discriminate; try reflexivity.
  - apply value_eqb_eq in E. now subst.
  - injection E as ->. now apply value_eqb_eq.
Qed.

Lemma attr_get_not_in (k : string) (d : attrs) :
  ~ In k (map fst d) -> attr_get k d = None.
Proof.
  induction d as [|[k' v] d IH]; cbn; intros Hn; [reflexivity|].
  destruct (String.eqb_spec k k') as [->|Hne]; [tauto|]. apply IH. tauto.
Qed.

(** [attrs_eqb] is equality of dictionaries as mappings. *)
Lemma attrs_eqb_spec (a b : attrs) :
  attrs_eqb a b = true <-> (forall k, attr_get k a = attr_get k b).
Proof.
  unfold attrs_eqb. rewrite forallb_forall. split.
  - intros Hall k.
    destruct (in_dec string_dec k (map fst a ++ map fst b)) as [Hin|Hout].
    + now apply opt_value_eqb_eq, Hall.
    + rewrite !attr_get_not_in; [reflexivity| |];
        intros Hk; apply Hout, in_or_app; auto.
  - intros Heq k _. now apply opt_value_eqb_eq.
Qed.

Lemma attrs_eqb_refl (a : attrs) : attrs_eqb a a = true.
Proof. now apply attrs_eqb_spec. Qed.

Lemma attrs_eqb_euclid (c a b : attrs) :
  attrs_eqb c a = true -> attrs_eqb c b = true -> attrs_eqb a b = true.
Proof.
  rewrite !attrs_eqb_spec. intros Ha Hb k. now rewrite <- Ha, <- Hb.
Qed.

Lemma obs_key_eqb_refl (o : observation) : obs_key_eqb o o = true.
Proof.
  destruct o as [[c d]|]; [|reflexivity].
  unfold obs_key_eqb, opt_eqb, AttrDict_eq. cbn [klass_of _attributes_].
  rewrite attrs_eqb_refl. now destruct c.
Qed.

Lemma act_key_eqb_refl (a : action_opt) : act_key_eqb a a = true.
Proof.
  destruct a as [[nm d]|]; [|reflexivity].
  unfold act_key_eqb, opt_eqb, Action_key_eqb, Action_eq.
  cbn [name action_attributes].
  now rewrite String.eqb_refl, attrs_eqb_refl.
Qed.

Lemma obs_key_eqb_euclid (c a b : observation) :
  obs_key_eqb c a = true -> obs_key_eqb c b = true -> obs_key_eqb a b = true.
Proof.
  destruct c as [[cc cd]|], a as [[ac ad]|], b as [[bc bd]|];
    unfold obs_key_eqb, opt_eqb; try discriminate; try reflexivity.
  unfold AttrDict_eq. cbn [klass_of _attributes_]. rewrite !andb_true_iff.
  intros [Hc1 Ha] [Hc2 Hb]. split.
  - destruct cc, ac, bc; cbn in *; congruence.
  - eapply attrs_eqb_euclid; eassumption.
Qed.

(** ** Dictionaries *)

Section DictFacts.
Context {K V : Type} (keq : K -> K -> bool).

Lemma dict_set_same (k : K) (v : V) (d : pydict K V) :
  dict_get keq k d = Some v -> dict_set keq k v d = d.
Proof.
  induction d as [|[k' v'] d IH]; cbn; [discriminate|].
  destruct (keq k' k).
  - now intros [= ->].
  - intros E. now rewrite IH.
Qed.

Lemma dict_get_set_present (k : K) (v v0 : V) (d : pydict K V) :
  dict_get keq k d = Some v0 -> dict_get keq k (dict_set keq k v d) = Some v.
Proof.
  induction d as [|[k' v'] d IH]; cbn; [discriminate|].
  destruct (keq k' k) eqn:E; cbn; rewrite E; auto.
Qed.

Lemma dict_set_absent (k : K) (v : V) (d : pydict K V) :
  dict_get keq k d = None -> dict_set keq k v d = d ++ [(k, v)].
Proof.
  induction d as [|[k' v'] d IH]; cbn; [reflexivity|].
  destruct (keq k' k); [discriminate|]. intros E. now rewrite IH.
Qed.

Lemma dict_get_app (k : K) (d d' : pydict K V) :
  dict_get keq k (d ++ d')
  = match dict_get keq k d with
    | Some v => Some v
    | None => dict_get keq k d'
    end.
Proof.
  induction d as [|[k' v'] d IH]; cbn; [reflexivity|].
  now destruct (keq k' k).
Qed.

Lemma dict_get_set_refl (k : K) (v : V) (d : pydict K V) :
  keq k k = true -> dict_get keq k (dict_set keq k v d) = Some v.
Proof.
  intros Hr. destruct (dict_get keq k d) eqn:E.
  - eapply dict_get_set_present; eassumption.
  - rewrite dict_set_absent, dict_get_app, E by assumption. cbn. now rewrite Hr.
Qed.

Lemma dict_keys_set_present (k : K) (v v0 : V) (d : pydict K V) :
  dict_get keq k d = Some v0 -> dict_keys (dict_set keq k v d) = dict_keys d.
Proof.
  unfold dict_keys. induction d as [|[k' v'] d IH]; cbn; [discriminate|].
  destruct (keq k' k); cbn; [reflexivity|]. intros E. now rewrite IH.
Qed.

Lemma dict_keys_set_in (x k : K) (v : V) (d : pydict K V) :
  In x (dict_keys (dict_set keq k v d)) -> x = k \/ In x (dict_keys d).
Proof.
  unfold dict_keys. induction d as [|[k' v'] d IH]; cbn.
  - intros [<-|[]]. now left.
  - destruct (keq k' k); cbn; [tauto|]. intros [<-|Hin]; [tauto|].
    destruct (IH Hin); tauto.
Qed.

Lemma dict_get_key_in (x : K) (d : pydict K V) :
  keq x x = true -> In x (dict_keys d) -> dict_get keq x d <> None.
Proof.
  unfold dict_keys. intros Hr. induction d as [|[k' v'] d IH]; cbn; [tauto|].
  intros [->|Hin].
  - now rewrite Hr.
  - destruct (keq k' x); [discriminate|]. now apply IH.
Qed.

Lemma dict_get_none_not_in (x : K) (d : pydict K V) :
  keq x x = true -> dict_get keq x d = None -> ~ In x (dict_keys d).
Proof. intros Hr E Hin. now apply (dict_get_key_in d Hr Hin). Qed.

(** Storing under [k] leaves the lookup of a different key alone. *)
Lemma dict_get_set_other (k o : K) (v : V) (d : pydict K V) :
  (forall c, keq c k = true -> keq c o = true -> keq k o = true) ->
  keq k o = false ->
  dict_get keq o (dict_set keq k v d) = dict_get keq o d.
Proof.
  intros Heuc Hne. induction d as [|[k' v'] d IH]; cbn.
  - now rewrite Hne.
  - destruct (keq k' k) eqn:E1; cbn.
    + destruct (keq k' o) eqn:E2; [|reflexivity].
      rewrite (Heuc k' E1 E2) in Hne. discriminate.
    + destruct (keq k' o); [reflexivity|apply IH].
Qed.
End DictFacts.

(** ** [TabularQLearningAgent]: reading the table *)

Section AgentFacts.
Context {R : Type} `{PyNumber R}.

Lemma set_value_function_same (ag : TabularQLearningAgent R) :
  set_value_function (value_function ag) ag = ag.
Proof. now destruct ag. Qed.

Lemma same_frame_refl (ag : TabularQLearningAgent R) : same_frame ag ag.
Proof. repeat split. Qed.

Lemma same_frame_trans (a b c : TabularQLearningAgent R) :
  same_frame a b -> same_frame b c -> same_frame a c.
Proof.
  intros (A1 & A2 & A3 & A4 & A5) (B1 & B2 & B3 & B4 & B5).
  repeat split; congruence.
Qed.

Lemma get_value_no_row (o : observation) (a : action_opt) (ag : TabularQLearningAgent R) :
  dict_get obs_key_eqb o (value_function ag) = None ->
  get_value o a ag = (zero, ag).
Proof. intros E. unfold get_value. now rewrite E. Qed.

Lemma get_value_stored (o : observation) (a : action_opt) (ag : TabularQLearningAgent R) (v : R) :
  stored (value_function ag) o a = Some v ->
  get_value o a ag = (v, ag).
Proof.
  unfold stored, get_value, row_getitem.
  destruct (dict_get obs_key_eqb o (value_function ag)) as [r|] eqn:E;
    [|discriminate].
  intros Ea. rewrite Ea.
  now rewrite (dict_set_same _ _ _ E), set_value_function_same.
Qed.

(** The read of an action that has no estimate, at an observation that
    has a row, appends the action to the row with [0.0]. *)
Lemma get_value_insert (o : observation) (a : action_opt) (ag : TabularQLearningAgent R)
    (r : row R) :
  dict_get obs_key_eqb o (value_function ag) = Some r ->
  dict_get act_key_eqb a r = None ->
  get_value o a ag
  = (zero, set_value_function
             (dict_set obs_key_eqb o (r ++ [(a, zero)]) (value_function ag)) ag).
Proof.
  intros E Ea. unfold get_value, row_getitem. rewrite E, Ea.
  now rewrite (dict_set_absent act_key_eqb a zero r Ea).
Qed.

Lemma get_value_fst (o : observation) (a : action_opt) (ag : TabularQLearningAgent R) :
  fst (get_value o a ag) = Q (value_function ag) o a.
Proof.
  unfold Q. destruct (stored (value_function ag) o a) as [v|] eqn:E.
  - now erewrite get_value_stored by eassumption.
  - unfold stored in E.
    destruct (dict_get obs_key_eqb o (value_function ag)) as [r|] eqn:Er.
    + now erewrite get_value_insert by eassumption.
    + now rewrite get_value_no_row by assumption.
Qed.

Lemma get_value_frame (o : observation) (a : action_opt) (ag : TabularQLearningAgent R) :
  same_frame ag (snd (get_value o a ag)).
Proof.
  unfold get_value.
  destruct (dict_get obs_key_eqb o (value_function ag)) as [r|] eqn:E.
  - destruct (row_getitem a r) as [v r']. cbn.
    repeat split. cbn. eapply dict_keys_set_present; eassumption.
  - apply same_frame_refl.
Qed.

Lemma valued_get (o : observation) (ag : TabularQLearningAgent R) :
  get_valued_actions o ag = valued (value_function ag) o.
Proof. reflexivity. Qed.

Lemma valued_stored (vf : table R) (o : observation) (x : action_opt) :
  In x (valued vf o) -> stored vf o x <> None.
Proof.
  unfold valued, stored. destruct (dict_get obs_key_eqb o vf) as [r|]; [|tauto].
  apply dict_get_key_in, act_key_eqb_refl.
Qed.

Lemma get_value_valued (o : observation) (x : action_opt) (ag : TabularQLearningAgent R) :
  In x (valued (value_function ag) o) ->
  get_value o x ag = (Q (value_function ag) o x, ag).
Proof.
  intros Hin. apply valued_stored in Hin. unfold Q.
  destruct (stored (value_function ag) o x) as [v|] eqn:E; [|tauto].
  now apply get_value_stored.
Qed.

(** The loop of [max] reads estimates that are stored: it returns the
    first maximal action and changes nothing. *)
Lemma max_loop_argmax (o : observation) (ag : TabularQLearningAgent R) (l : list action_opt) :
  (forall x, In x l -> In x (valued (value_function ag) o)) ->
  forall best,
    max_loop o best (Q (value_function ag) o best) l ag
    = (argmax (Q (value_function ag) o) best l, ag).
Proof.
  induction l as [|a l IH]; intros Hl best; cbn [max_loop argmax]; [reflexivity|].
  rewrite get_value_valued by (apply Hl; now left).
  destruct (gtb (Q (value_function ag) o a) (Q (value_function ag) o best));
    apply IH; intros x Hx; apply Hl; now right.
Qed.

Lemma get_best_action_spec (o : observation) (ag : TabularQLearningAgent R) :
  get_best_action o ag = (best_action (value_function ag) o, ag).
Proof.
  unfold get_best_action, best_action. rewrite valued_get.
  destruct (valued (value_function ag) o) as [|a l] eqn:E; [reflexivity|].
  assert (Hall : forall x, In x (a :: l) -> In x (valued (value_function ag) o))
    by (now rewrite E).
  rewrite get_value_valued by (apply Hall; now left).
  apply max_loop_argmax. intros x Hx. apply Hall. now right.
Qed.

Lemma argmax_in (val : action_opt -> R) (l : list action_opt) :
  forall best, In (argmax val best l) (best :: l).
Proof.
  induction l as [|a l IH]; intros best; cbn [argmax]; [now left|].
  destruct (gtb (val a) (val best)).
  - right. apply IH.
  - destruct (IH best) as [E|Hin]; [now left | right; now right].
Qed.

Lemma best_action_valued (vf : table R) (o : observation) :
  valued vf o <> [] -> In (best_action vf o) (valued vf o).
Proof.
  unfold best_action. destruct (valued vf o) as [|a l]; [tauto|].
  intros _. apply argmax_in.
Qed.

Lemma get_best_value_fst (o : observation) (ag : TabularQLearningAgent R) :
  fst (get_best_value o ag) = max_Q (value_function ag) o.
Proof.
  unfold get_best_value. rewrite get_best_action_spec, get_value_fst.
  unfold max_Q, best_action.
  destruct (valued (value_function ag) o) as [|a l] eqn:E; [|reflexivity].
  unfold Q, stored. unfold valued in E.
  destruct (dict_get obs_key_eqb o (value_function ag)) as [r|]; [|reflexivity].
  destruct r as [|[k v] r]; [reflexivity|discriminate E].
Qed.

Lemma get_best_value_frame (o : observation) (ag : TabularQLearningAgent R) :
  same_frame ag (snd (get_best_value o ag)).
Proof.
  unfold get_best_value. rewrite get_best_action_spec. apply get_value_frame.
Qed.

(** Python's integers are ordered. *)
Lemma Z_ordered : ordered (R := Z).
Proof.
  unfold ordered, gtb. cbn [ltb Z_number]. split.
  - intros x. apply Z.ltb_irrefl.
  - intros x m m'. rewrite !Z.ltb_ge, Z.ltb_lt. lia.
Qed.

(** The maximum over the valued actions is an upper bound of their
    estimates when the comparison is an order. *)
Lemma argmax_upper (val : action_opt -> R) (l : list action_opt) :
  ordered (R := R) ->
  forall best seen,
    (forall x, In x seen -> gtb (val x) (val best) = false) ->
    forall x, In x (seen ++ best :: l) ->
      gtb (val x) (val (argmax val best l)) = false.
Proof.
  intros [Hirr Hneg]. induction l as [|a l IH]; intros best seen Hseen x Hx;
    cbn [argmax].
  - apply in_app_or in Hx. destruct Hx as [Hx|[<-|[]]]; auto.
  - destruct (gtb (val a) (val best)) eqn:E.
    + apply (IH a (seen ++ [best])).
      * intros y Hy. apply in_app_or in Hy. destruct Hy as [Hy|[<-|[]]].
        -- eapply Hneg; [apply Hseen, Hy | exact E].
        -- eapply Hneg; [apply Hirr | exact E].
      * rewrite <- app_assoc. exact Hx.
    + apply (IH best (seen ++ [a])).
      * intros y Hy. apply in_app_or in Hy. destruct Hy as [Hy|[<-|[]]]; auto.
      * apply in_app_or in Hx. apply in_or_app.
        destruct Hx as [Hx|[<-|[<-|Hx]]].
        -- left. apply in_or_app. now left.
        -- right. now left.
        -- left. apply in_or_app. right. now left.
        -- right. now right.
Qed.

Lemma max_Q_upper (vf : table R) (o : observation) (x : action_opt) :
  ordered (R := R) -> In x (valued vf o) -> gtb (Q vf o x) (max_Q vf o) = false.
Proof.
  intros Hord Hin. unfold max_Q. destruct (valued vf o) as [|a l]; [destruct Hin|].
  apply (argmax_upper (Q vf o) l Hord a []); [intros y []|exact Hin].
Qed.

Lemma max_Q_terminal (vf : table R) :
  no_terminal_key vf -> max_Q vf None = zero.
Proof.
  intros Hn. unfold max_Q, valued.
  destruct (dict_get obs_key_eqb None vf) as [r|] eqn:E; [|reflexivity].
  exfalso. apply Hn.
  assert (G : forall d : table R, dict_get obs_key_eqb None d <> None ->
                                  In None (dict_keys d)).
  { induction d as [|[k v] d IH]; cbn; [tauto|].
    destruct k as [s|]; cbn; [|now left]. intros Hd. right. now apply IH. }
  apply G. now rewrite E.
Qed.
End AgentFacts.

(** ** [TabularQLearningAgent]: writing the table *)

Section AgentUpdate.
Context {R : Type} `{PyNumber R}.

Lemma stored_table_setitem (o : observation) (a : action_opt) (v : R)
    (vf : table R) :
  stored (table_setitem o a v vf) o a = Some v.
Proof.
  unfold stored, table_setitem.
  destruct (dict_get obs_key_eqb o vf) as [r|] eqn:E.
  - rewrite (dict_get_set_present _ _ _ _ E).
    apply dict_get_set_refl, act_key_eqb_refl.
  - rewrite dict_get_set_refl by apply obs_key_eqb_refl.
    apply dict_get_set_refl, act_key_eqb_refl.
Qed.

Lemma table_setitem_keys (x o : observation) (a : action_opt) (v : R)
    (vf : table R) :
  In x (dict_keys (table_setitem o a v vf)) -> x = o \/ In x (dict_keys vf).
Proof.
  unfold table_setitem.
  destruct (dict_get obs_key_eqb o vf); apply dict_keys_set_in.
Qed.

(** [_observe_reward] stores, for the previous pair, the update computed
    from the estimate read for that pair and from the maximum at the new
    observation, taken after that read. *)
Lemma observe_reward_spec (o : observation) (r : R) (ag : TabularQLearningAgent R) :
  let po := prev_observation ag in
  let pa := prev_action ag in
  let ag1 := snd (get_value po pa ag) in
  let new := q_update (learning_rate ag) (discount_rate ag)
                      (Q (value_function ag) po pa)
                      (max_Q (value_function ag1) o) r in
  exists vf2,
    dict_keys vf2 = dict_keys (value_function ag)
    /\ _observe_reward o r ag
       = mkAgent (table_setitem po pa new vf2) (learning_rate ag)
                 (discount_rate ag) po pa.
Proof.
  intros po pa ag1 new. unfold _observe_reward. fold po pa.
  pose proof (get_value_fst po pa ag) as Hv.
  pose proof (get_value_frame po pa ag) as Hf1.
  fold ag1 in Hf1. destruct (get_value po pa ag) as [pv ag1'] eqn:E1.
  cbn [fst snd] in *. subst ag1. subst pv.
  pose proof (get_best_value_fst o ag1') as Hb.
  pose proof (get_best_value_frame o ag1') as Hf2.
  destruct (get_best_value o ag1') as [bv ag2] eqn:E2.
  cbn [fst snd] in *. subst bv.
  destruct (same_frame_trans Hf1 Hf2) as (F1 & F2 & F3 & F4 & F5).
  exists (value_function ag2). split; [exact F5|].
  unfold set_value_function. rewrite F1, F2, F3, F4. reflexivity.
Qed.

Lemma force_act_updates (o : observation) (a : action_opt) (r : R)
    (ag : TabularQLearningAgent R) (pa : Action) :
  prev_action ag = Some pa ->
  force_act o a (Some r) ag
  = (a, set_prev o (match o with None => None | Some _ => a end)
                 (_observe_reward o r ag)).
Proof. intros E. unfold force_act. rewrite E. now destruct o. Qed.

Lemma force_act_fst (o : observation) (a : action_opt) (reward : option R)
    (ag : TabularQLearningAgent R) :
  fst (force_act o a reward ag) = a.
Proof. reflexivity. Qed.

(** The read of the previous estimate changes the table in one case
    only. *)
Lemma get_value_table (o : observation) (a : action_opt)
    (ag : TabularQLearningAgent R) :
  value_function (snd (get_value o a ag)) = value_function ag
  \/ (exists rw,
        dict_get obs_key_eqb o (value_function ag) = Some rw
        /\ dict_get act_key_eqb a rw = None
        /\ value_function (snd (get_value o a ag))
           = dict_set obs_key_eqb o (rw ++ [(a, zero)]) (value_function ag)).
Proof.
  destruct (dict_get obs_key_eqb o (value_function ag)) as [rw|] eqn:E.
  - destruct (dict_get act_key_eqb a rw) as [v|] eqn:Ea.
    + left. erewrite get_value_stored; [reflexivity|].
      unfold stored. rewrite E. exact Ea.
    + right. exists rw. erewrite get_value_insert by eassumption. auto.
  - left. now rewrite get_value_no_row.
Qed.

Lemma max_Q_same_row (vf vf' : table R) (o : observation) :
  dict_get obs_key_eqb o vf' = dict_get obs_key_eqb o vf ->
  max_Q vf' o = max_Q vf o /\ valued vf' o = valued vf o.
Proof.
  intros E. unfold max_Q, valued, Q, stored. now rewrite E.
Qed.

Lemma get_value_other_row (po o : observation) (pa : action_opt)
    (ag : TabularQLearningAgent R) :
  stored (value_function ag) po pa <> None
  \/ dict_get obs_key_eqb po (value_function ag) = None
  \/ obs_key_eqb po o = false ->
  dict_get obs_key_eqb o (value_function (snd (get_value po pa ag)))
  = dict_get obs_key_eqb o (value_function ag).
Proof.
  intros Hc. destruct (get_value_table po pa ag) as [->|(rw & E & Ea & ->)];
    [reflexivity|].
  destruct Hc as [Hs|[Hn|Hne]].
  - exfalso. apply Hs. unfold stored. now rewrite E.
  - congruence.
  - apply dict_get_set_other; [|exact Hne].
    intros c. apply obs_key_eqb_euclid.
Qed.
End AgentUpdate.

(** C1, as the claim states it, with the maximum over the actions
    valued at [obs] when [force_act] is called: at [cell_00] the agent
    holds one estimate, [-2.5] for [up], and its previous action there
    is [right]; on [force_act(cell_00, up, 10)] the formula gives
    [0.5*0 + 0.5*(10 + 0.9*(-2.5)) = 3.875], and the value stored is
    [5.0]. *)
Lemma q_update_max_after_read :
  let ag := revisiting_agent in
  let po := prev_observation ag in
  let pa := prev_action ag in
  let vf := value_function ag in
  pa = Some GridWorld.right
  /\ valued vf cell_00 = [Some GridWorld.up]
  /\ stored (value_function (snd (force_act cell_00 (Some GridWorld.up)
                                            (Some 10%float) ag))) po pa
     <> Some (q_update (learning_rate ag) (discount_rate ag)
                       (Q vf po pa) (max_Q vf cell_00) 10%float).
Proof.
  cbv zeta. split; [reflexivity|]. split; [reflexivity|].
  intros E.
  apply (f_equal (fun x => match x with
                           | Some f => PrimFloat.ltb f 4%float
                           | None => false
                           end)) in E.
  vm_compute in E. discriminate E.
Qed.

(** C1, amended.  When [force_act] is called with a previous action
    recorded and a reward, the value stored afterwards for
    [(prev_obs, prev_action)] is
    [(1-alpha)*Q(prev_obs, prev_action) + alpha*(reward + gamma*M)],
    where [Q] is read in the table as it is at the call and [M] is the
    maximum of [Q(obs, a)] over the actions valued at [obs] once that
    read is done.  The read changes the table in one case only: when
    [prev_obs] has a row without [prev_action], it appends
    [prev_action] to the row with [0.0]; so [M] is the maximum over the
    actions valued at the call whenever [prev_action] has an estimate,
    [prev_obs] has no row, or [obs] is another observation than
    [prev_obs].  [M] is the estimate of a valued action that none
    exceeds (the comparison being an order), and [0] if [obs] has no
    valued actions or is terminal (no row being keyed by the terminal
    marker).  For [alpha = 0.5], [gamma = 0.9], prior estimate [0],
    reward [10] and [M = 0], the stored value is exactly [5.0]. *)
Theorem force_act_q_update :
  (forall (R : Type) (N : PyNumber R) (ag : TabularQLearningAgent R)
          (o : observation) (a : action_opt) (pa : Action) (r : R),
      prev_action ag = Some pa ->
      let po := prev_observation ag in
      let vf := value_function ag in
      let vf1 := value_function (snd (get_value po (Some pa) ag)) in
      let M := max_Q vf1 o in
      let ag' := snd (force_act o a (Some r) ag) in
      fst (force_act o a (Some r) ag) = a
      /\ stored (value_function ag') po (Some pa)
         = Some (q_update (learning_rate ag) (discount_rate ag)
                          (Q vf po (Some pa)) M r)
      /\ (vf1 = vf
          \/ exists rw, dict_get obs_key_eqb po vf = Some rw
                        /\ dict_get act_key_eqb (Some pa) rw = None
                        /\ vf1 = dict_set obs_key_eqb po
                                          (rw ++ [(Some pa, zero)]) vf)
      /\ (stored vf po (Some pa) <> None
          \/ dict_get obs_key_eqb po vf = None
          \/ obs_key_eqb po o = false ->
          M = max_Q vf o /\ valued vf1 o = valued vf o)
      /\ (valued vf1 o = [] -> M = zero)
      /\ (o = None -> no_terminal_key vf -> M = zero)
      /\ (valued vf1 o <> [] ->
          exists x, In x (valued vf1 o) /\ M = Q vf1 o x)
      /\ (ordered (R := R) ->
          forall x, In x (valued vf1 o) -> gtb (Q vf1 o x) M = false))
  /\ (forall (ag : TabularQLearningAgent float) (o : observation)
             (a : action_opt) (pa : Action),
        prev_action ag = Some pa ->
        learning_rate ag = one_half ->
        discount_rate ag = nine_tenths ->
        let po := prev_observation ag in
        Q (value_function ag) po (Some pa) = 0%float ->
        max_Q (value_function (snd (get_value po (Some pa) ag))) o = 0%float ->
        stored (value_function (snd (force_act o a (Some 10%float) ag)))
               po (Some pa)
        = Some 5%float).
Proof.
  assert (G : forall (R : Type) (N : PyNumber R) (ag : TabularQLearningAgent R)
                     (o : observation) (a : action_opt) (pa : Action) (r : R),
             prev_action ag = Some pa ->
             stored (value_function (snd (force_act o a (Some r) ag)))
                    (prev_observation ag) (Some pa)
             = Some (q_update (learning_rate ag) (discount_rate ag)
                       (Q (value_function ag) (prev_observation ag) (Some pa))
                       (max_Q (value_function
                                 (snd (get_value (prev_observation ag) (Some pa) ag))) o)
                       r)).
  { intros R N ag o a pa r Hpa.
    rewrite (force_act_updates o a r ag Hpa). cbn [snd].
    destruct (observe_reward_spec o r ag) as (vf2 & _ & ->).
    rewrite Hpa. unfold set_prev. cbn [value_function].
    apply stored_table_setitem. }
  split.
  - intros R N ag o a pa r Hpa po vf vf1 M ag'.
    split; [reflexivity|]. split; [now apply G|].
    split; [apply get_value_table|]. split.
    { intros Hc. apply max_Q_same_row. now apply get_value_other_row. }
    split.
    { intros E. subst M. unfold max_Q. now rewrite E. }
    split.
    { intros -> Hn. subst M. apply max_Q_terminal.
      unfold no_terminal_key. subst vf1.
      destruct (get_value_frame po (Some pa) ag) as (_ & _ & _ & _ & ->).
      exact Hn. }
    split.
    { intros Hne. exists (best_action vf1 o). split.
      - now apply best_action_valued.
      - subst M. unfold max_Q, best_action.
        destruct (valued vf1 o); [tauto|reflexivity]. }
    intros Hord x Hin. now apply max_Q_upper.
  - intros ag o a pa Hpa Hl Hd po HQ HM. subst po.
    rewrite (G float float_number ag o a pa 10%float Hpa).
    rewrite HQ, HM, Hl, Hd. reflexivity.
Qed.

(** A fresh agent that acted once at [cell_00] and is told its reward
    at [cell_01] stores exactly [5.0]. *)
Lemma force_act_q_update_witness :
  prev_observation first_step_agent = cell_00
  /\ stored (value_function (snd (force_act cell_01 (Some GridWorld.left)
                                            (Some 10%float) first_step_agent)))
            (prev_observation first_step_agent) (Some GridWorld.right)
     = Some 5%float.
Proof.
  split; [reflexivity|].
  apply (proj2 force_act_q_update first_step_agent cell_01
               (Some GridWorld.left) GridWorld.right); reflexivity.
Defined.

(** ** The terminal marker never keys a row *)

Section AgentInvariant.
Context {R : Type} `{PyNumber R}.

Lemma same_frame_inv (ag ag' : TabularQLearningAgent R) :
  same_frame ag ag' -> agent_inv ag -> agent_inv ag'.
Proof.
  intros (_ & _ & Ho & Ha & Hk) [Hn Hp]. unfold agent_inv, no_terminal_key.
  rewrite Hk, Ho, Ha. now split.
Qed.

Lemma init_inv (alpha gamma : R) : agent_inv (init alpha gamma).
Proof. split; [intros []|intros Hp; now elim Hp]. Qed.

Lemma get_value_inv (o : observation) (a : action_opt) (ag : TabularQLearningAgent R) :
  agent_inv ag -> agent_inv (snd (get_value o a ag)).
Proof. apply same_frame_inv, get_value_frame. Qed.

Lemma observe_reward_no_terminal (o : observation) (r : R)
    (ag : TabularQLearningAgent R) :
  prev_action ag <> None -> agent_inv ag ->
  no_terminal_key (value_function (_observe_reward o r ag)).
Proof.
  intros Hpa [Hn Hp].
  destruct (observe_reward_spec o r ag) as (vf2 & Hk & ->).
  cbn [value_function]. intros Hin.
  apply table_setitem_keys in Hin. destruct Hin as [E|Hin].
  - now apply (Hp Hpa).
  - apply Hn. now rewrite <- Hk.
Qed.

Lemma force_act_inv (o : observation) (a : action_opt) (reward : option R)
    (ag : TabularQLearningAgent R) :
  agent_inv ag -> agent_inv (snd (force_act o a reward ag)).
Proof.
  intros Hinv. unfold force_act. cbn [snd].
  assert (Hn : no_terminal_key
                 (value_function
                    match prev_action ag, reward with
                    | Some _, Some r => _observe_reward o r ag
                    | _, _ => ag
                    end)).
  { destruct (prev_action ag) as [pa|] eqn:E; [|apply Hinv].
    destruct reward as [r|]; [|apply Hinv].
    apply observe_reward_no_terminal; [congruence|exact Hinv]. }
  destruct o as [s|]; split; cbn [value_function prev_action prev_observation set_prev];
    try exact Hn; intros Hp; [discriminate | now elim Hp].
Qed.

Lemma act_inv (o : observation) (actions : list Action) (reward : option R)
    (draw : nat) (ag : TabularQLearningAgent R) :
  agent_inv ag -> agent_inv (snd (act o actions reward draw ag)).
Proof.
  intros Hinv. unfold act. rewrite get_best_action_spec.
  destruct (best_action (value_function ag) o) as [b|].
  - pose proof (force_act_inv o (Some b) reward Hinv) as Hf.
    now destruct (force_act o (Some b) reward ag).
  - destruct (choice draw actions) as [c|e]; [|exact Hinv].
    pose proof (force_act_inv o (Some c) reward Hinv) as Hf.
    now destruct (force_act o (Some c) reward ag).
Qed.

Lemma run_calls_inv (cs : list (agent_call R)) :
  forall ag, agent_inv ag -> agent_inv (run_calls cs ag).
Proof.
  unfold run_calls. induction cs as [|c cs IH]; intros ag Hinv; [exact Hinv|].
  cbn [fold_left]. apply IH.
  destruct c; cbn [run_call];
    [now apply get_value_inv | now apply act_inv | now apply force_act_inv].
Qed.
End AgentInvariant.

(** C8.  After any sequence of [get_value], [act] and [force_act] calls
    on a new agent, whatever their arguments (the terminal observation
    [None] among them), no row of the value table is keyed by the
    terminal marker, and no estimate is stored under it. *)
Theorem value_table_never_holds_terminal (R : Type) (N : PyNumber R)
    (alpha gamma : R) (calls : list (agent_call R)) :
  let vf := value_function (run_calls calls (init alpha gamma)) in
  ~ In None (dict_keys vf)
  /\ dict_get obs_key_eqb None vf = None
  /\ (forall a, stored vf None a = None).
Proof.
  intros vf.
  assert (Hn : ~ In None (dict_keys vf))
    by apply (run_calls_inv calls (init_inv alpha gamma)).
  assert (Hg : dict_get obs_key_eqb None vf = None).
  { destruct (dict_get obs_key_eqb None vf) as [rw|] eqn:E; [|reflexivity].
    exfalso. apply Hn. clear Hn. revert E. generalize vf.
    induction vf0 as [|[k v] d IH]; cbn; [discriminate|].
    destruct k as [s|]; cbn; [|now left]. intros E. right. now apply IH. }
  split; [exact Hn|]. split; [exact Hg|].
  intros a. unfold stored. now rewrite Hg.
Qed.

(** ** The read of a missing estimate *)

Lemma argmax_app_last {R : Type} `{PyNumber R} (val : action_opt -> R)
    (l : list action_opt) (a : action_opt) :
  forall best,
    argmax val best (l ++ [a])
    = if gtb (val a) (val (argmax val best l)) then a else argmax val best l.
Proof.
  induction l as [|x l IH]; intros best; cbn [argmax app]; [reflexivity|].
  destruct (gtb (val x) (val best)); apply IH.
Qed.

(** C10.  At an observation that has a row in the table,
    [get_value(observation, action)] for an action without an estimate
    returns [0.0] and appends the action to the row with [0.0]: the
    action was not among the valued actions and is the last of them
    afterwards, and [get_best_action] returns it when every estimate
    stored before is below [0]. *)
Theorem get_value_inserts_default (R : Type) (N : PyNumber R)
    (ag : TabularQLearningAgent R) (o : observation) (a : action_opt)
    (rw : row R) :
  dict_get obs_key_eqb o (value_function ag) = Some rw ->
  dict_get act_key_eqb a rw = None ->
  let ag' := snd (get_value o a ag) in
  fst (get_value o a ag) = zero
  /\ value_function ag'
     = dict_set obs_key_eqb o (rw ++ [(a, zero)]) (value_function ag)
  /\ stored (value_function ag) o a = None
  /\ stored (value_function ag') o a = Some zero
  /\ ~ In a (get_valued_actions o ag)
  /\ get_valued_actions o ag' = get_valued_actions o ag ++ [a]
  /\ ((forall x, In x (get_valued_actions o ag) ->
                 gtb zero (Q (value_function ag) o x) = true) ->
      fst (get_best_action o ag') = a).
Proof.
  intros Er Ea ag'.
  assert (Eg : get_value o a ag
               = (zero, set_value_function
                          (dict_set obs_key_eqb o (rw ++ [(a, zero)])
                                    (value_function ag)) ag))
    by now apply get_value_insert.
  assert (Evf : value_function ag'
                = dict_set obs_key_eqb o (rw ++ [(a, zero)]) (value_function ag))
    by (subst ag'; now rewrite Eg).
  assert (Er' : dict_get obs_key_eqb o (value_function ag')
                = Some (rw ++ [(a, zero)])).
  { rewrite Evf. eapply dict_get_set_present. exact Er. }
  assert (Eva : valued (value_function ag) o = dict_keys rw)
    by (unfold valued; now rewrite Er).
  assert (Eva' : valued (value_function ag') o = dict_keys rw ++ [a]).
  { unfold valued. rewrite Er'. unfold dict_keys. now rewrite map_app. }
  assert (Es' : forall x, stored (value_function ag') o x
                          = match dict_get act_key_eqb x rw with
                            | Some v => Some v
                            | None => if act_key_eqb a x then Some zero else None
                            end).
  { intros x. unfold stored. rewrite Er', dict_get_app. cbn [dict_get].
    reflexivity. }
  split; [now rewrite Eg|]. split; [exact Evf|].
  split; [unfold stored; now rewrite Er|].
  split; [rewrite Es', Ea, act_key_eqb_refl; reflexivity|].
  split.
  { rewrite valued_get, Eva.
    exact (@dict_get_none_not_in _ _ act_key_eqb a rw (act_key_eqb_refl a) Ea). }
  split; [now rewrite !valued_get, Eva, Eva'|].
  intros Hneg. rewrite get_best_action_spec. cbn [fst].
  unfold best_action. rewrite Eva'.
  assert (HQa : Q (value_function ag') o a = zero).
  { unfold Q. now rewrite Es', Ea, act_key_eqb_refl. }
  assert (HQx : forall x, In x (dict_keys rw) ->
                          Q (value_function ag') o x = Q (value_function ag) o x).
  { intros x Hx. unfold Q. rewrite Es'. unfold stored. rewrite Er.
    pose proof (@dict_get_key_in _ _ act_key_eqb x rw (act_key_eqb_refl x) Hx) as Hs.
    now destruct (dict_get act_key_eqb x rw). }
  destruct (dict_keys rw) as [|x0 l] eqn:Ek; [reflexivity|].
  cbn [app]. rewrite argmax_app_last.
  pose proof (argmax_in (Q (value_function ag') o) l x0) as Hin.
  rewrite HQa, (HQx _ Hin), Hneg; [reflexivity|].
  now rewrite valued_get, Eva.
Qed.

Lemma get_value_inserts_default_witness :
  fst (get_value cell_00 (Some GridWorld.right) revisiting_agent) = 0%float
  /\ fst (get_best_action cell_00
            (snd (get_value cell_00 (Some GridWorld.right) revisiting_agent)))
     = Some GridWorld.right.
Proof.
  destruct (@get_value_inserts_default float float_number revisiting_agent
              cell_00 (Some GridWorld.right)
              [(Some GridWorld.up, (-2.5)%float)]
              ltac:(reflexivity) ltac:(reflexivity))
    as (H0 & _ & _ & _ & _ & _ & Hb).
  split; [exact H0|]. apply Hb.
  intros x [<-|[]]. reflexivity.
Defined.

(** ** [epsilon_greedy] *)

Lemma choice_in {A : Type} (draw : nat) (seq : list A) (c : A) :
  choice draw seq = Ok c -> In c seq.
Proof.
  unfold choice.
  destruct (nth_error seq (Nat.modulo draw (List.length seq))) as [x|] eqn:E;
    [|discriminate].
  intros [= <-]. eapply nth_error_In. exact E.
Qed.


Lemma choice_nonempty {A : Type} (draw : nat) (seq : list A) :
  seq <> [] -> exists c, choice draw seq = Ok c.
Proof.
  intros Hne. unfold choice.
  destruct (nth_error seq (Nat.modulo draw (List.length seq))) as [x|] eqn:E;
    [now exists x|].
  apply nth_error_None in E. exfalso.
  assert (List.length seq <> 0)%nat by (destruct seq; cbn; [tauto|lia]).
  pose proof (Nat.mod_upper_bound draw (List.length seq)). lia.
Qed.



(** * Further properties *)

(** ** The job launcher *)

Lemma get_parameters_past_the_end {A : Type} (pspace : list A) (n c : Z) :
  0 < n ->
  Z.min (Z.of_nat (List.length pspace)) n <= c <= n ->
  get_parameters pspace n c = Ok [].
Proof.
  intros Hn Hc. unfold get_parameters.
  destruct (Z.eqb_spec n 0); [lia|]. f_equal.
  set (total := Z.of_nat (List.length pspace)) in *.
  destruct (@chunk_remainder total n ltac:(subst total; lia) Hn) as (E & Hr & Hq).
  set (q := total / n) in *. set (r := total mod n) in *.
  assert (Hs : total <= q * c + Z.min c r).
  { destruct (Z.le_gt_cases n total) as [Hle|Hgt].
    - assert (c = n) by lia. subst c. lia.
    - assert (q = 0) by (subst q; apply Z.div_small; lia).
      assert (r = total) by lia. lia. }
  assert (He : q * c + Z.min c r <= q * (c + 1) + Z.min (c + 1) r) by nia.
  unfold py_slice. fold total.
  destruct (Z.ltb_spec (q * c + Z.min c r) 0); [lia|].
  destruct (Z.ltb_spec (q * (c + 1) + Z.min (c + 1) r) 0); [lia|].
  rewrite !Z.min_l, !Z.max_r by lia. now rewrite Z.sub_diag.
Qed.



Lemma job_cores_in {A : Type} (pspace : list A) (n c : Z) :
  In c (job_cores pspace n) <->
  0 <= c < Z.min (Z.of_nat (List.length pspace)) n.
Proof.
  unfold job_cores. rewrite in_map_iff. split.
  - intros (i & <- & Hi). apply in_seq in Hi. lia.
  - intros Hc. exists (Z.to_nat c). split; [lia|]. apply in_seq. lia.
Qed.

Lemma job_slices_concat {A : Type} (pspace : list A) (n : Z) :
  0 < n ->
  List.concat (map (fun c => ok_or_nil (get_parameters pspace n c))
                   (job_cores pspace n)) = pspace.
Proof.
  intros Hn. set (total := Z.of_nat (List.length pspace)).
  destruct (@chunk_remainder total n ltac:(subst total; lia) Hn) as (E & Hr & Hq).
  unfold job_cores. rewrite map_map. fold total.
  set (k := Z.to_nat (Z.min total n)).
  replace n with (Z.of_nat (Z.to_nat n)) by lia.
  rewrite slices_prefix by lia. fold total.
  replace (Z.of_nat (Z.to_nat n)) with n by lia.
  replace (Z.to_nat (spec_start total n (Z.of_nat k)))
    with (List.length pspace); [apply firstn_all|].
  unfold spec_start. subst k.
  destruct (Z.le_gt_cases n total) as [Hle|Hgt].
  - rewrite Z.min_r by lia. rewrite Z2Nat.id by lia. subst total. lia.
  - rewrite Z.min_l by lia. rewrite Z2Nat.id by lia.
    assert (total / n = 0) by (apply Z.div_small; lia).
    assert (total mod n = total) by lia. subst total. lia.
Qed.

(** X2.  For [num_cores >= 1], the jobs [generate_jobs] starts, one per
    value of [range(min(len(pspace), num_cores))], get non-empty slices
    which, in the order of the cores, make up the whole parameter space;
    a core beyond them (up to [num_cores], which [cluster_run] admits)
    gets nothing. *)
Theorem generate_jobs_cover {A : Type} (pspace : list A) (n : Z) :
  0 < n ->
  List.concat (map (fun c => ok_or_nil (get_parameters pspace n c))
                   (job_cores pspace n)) = pspace
  /\ (forall c, In c (job_cores pspace n) ->
        exists p ps, get_parameters pspace n c = Ok (p :: ps))
  /\ (forall c, ~ In c (job_cores pspace n) -> 0 <= c <= n ->
        get_parameters pspace n c = Ok []).
Proof.
  intros Hn. set (total := Z.of_nat (List.length pspace)).
  destruct (@chunk_remainder total n ltac:(subst total; lia) Hn) as (E & Hr & Hq).
  split; [|split].
  - now apply job_slices_concat.
  - intros c Hc. apply job_cores_in in Hc. fold total in Hc.
    rewrite get_parameters_in_range by lia. fold total.
    pose proof (@spec_range_size total n c ltac:(lia)) as Sz.
    pose proof (@spec_range_bounds total n ltac:(subst total; lia) Hn c ltac:(lia)) as B.
    assert (Hpos : 0 < spec_end total n c - spec_start total n c).
    { rewrite Sz. destruct (Z.ltb_spec c (total mod n)); [lia|].
      destruct (Z.le_gt_cases n total) as [Hle|Hgt].
      - assert (0 < total / n); [|lia].
        apply Z.div_str_pos. lia.
      - assert (total mod n = total) by (apply Z.mod_small; lia). lia. }
    unfold index_range.
    destruct (firstn (Z.to_nat (spec_end total n c - spec_start total n c))
                     (skipn (Z.to_nat (spec_start total n c)) pspace))
      as [|p ps] eqn:Ef; [|now exists p, ps].
    exfalso. apply (f_equal (@List.length A)) in Ef.
    rewrite length_firstn, length_skipn in Ef. cbn in Ef.
    subst total. lia.
  - intros c Hout Hc. apply get_parameters_past_the_end; [lia|].
    rewrite job_cores_in in Hout. lia.
Qed.

Lemma generate_jobs_cover_witness :
  job_cores [10; 20] 40 = [0; 1]
  /\ List.concat (map (fun c => ok_or_nil (get_parameters [10; 20] 40 c))
                      (job_cores [10; 20] 40)) = [10; 20].
Proof.
  split; [reflexivity|].
  exact (proj1 (@generate_jobs_cover Z [10; 20] 40 ltac:(lia))).
Defined.

Lemma run_jobs_fold {A St : Type} (experiment_fn : A -> St -> St)
    (pspace : list A) (n : Z) (cores : list Z) :
  0 < n -> (forall c, In c cores -> 0 <= c < n) ->
  forall s,
    run_jobs experiment_fn pspace n cores s
    = Ok (fold_left (fun s params => experiment_fn params s)
            (List.concat (map (fun c => ok_or_nil (get_parameters pspace n c)) cores))
            s).
Proof.
  intros Hn. induction cores as [|c cores IH]; intros Hall s; [reflexivity|].
  assert (Hc : 0 <= c < n) by (apply Hall; now left).
  cbn [run_jobs map List.concat]. unfold run_job.
  rewrite (get_parameters_in_range pspace Hn Hc).
  cbn [bind ok_or_nil]. rewrite IH by (intros c' Hc'; apply Hall; now right).
  now rewrite fold_left_app.
Qed.

(** X3.  For [num_cores >= 1], running the jobs that [generate_jobs]
    starts one after the other, in the order of their cores, runs the
    experiment on the same parameter sets in the same order as
    [run_serial] does: no job raises, and the outcome is the same. *)
Theorem jobs_in_order_equal_serial {A St : Type} (experiment_fn : A -> St -> St)
    (pspace : list A) (n : Z) (s : St) :
  0 < n ->
  run_jobs experiment_fn pspace n (job_cores pspace n) s
  = Ok (run_serial experiment_fn pspace s).
Proof.
  intros Hn. rewrite run_jobs_fold.
  - now rewrite job_slices_concat.
  - exact Hn.
  - intros c Hc. apply job_cores_in in Hc. lia.
Qed.

Lemma jobs_in_order_equal_serial_witness :
  run_jobs (fun p log => log ++ [p]) [1; 2; 3; 4; 5] 2
           (job_cores [1; 2; 3; 4; 5] 2) []
  = Ok [1; 2; 3; 4; 5].
Proof.
  exact (@jobs_in_order_equal_serial Z (list Z) (fun p log => log ++ [p])
           [1; 2; 3; 4; 5] 2 [] ltac:(lia)).
Defined.

(** ** [GridWorld]: positions, rewards and resets *)

Lemma attrs_eqb_nil (b : attrs) : attrs_eqb [] b = true <-> b = [].
Proof.
  split; [|intros ->; reflexivity].
  destruct b as [|[k v] b]; [reflexivity|].
  unfold attrs_eqb. cbn [map fst app forallb attr_get].
  now rewrite String.eqb_refl.
Qed.

(** Every action [GridWorld.get_actions] returns is free of keyword
    attributes, and at a row [>= 0] there is one: membership in the
    list is being free of attributes. *)
Lemma gridworld_py_in_legal {W : Type} (L : Lens W GridWorld.fields) (w : W)
    (a : Action) (legal : list Action) :
  0 <= GridWorld.row (view L w) ->
  GridWorld.get_actions L w = Ok legal ->
  py_in a legal = attrs_eqb [] (action_attributes a).
Proof.
  intros Hr. unfold GridWorld.get_actions.
  destruct (Z.geb_spec (GridWorld.row (view L w)) 0); [|lia].
  intros E. injection E as <-.
  destruct (attrs_eqb [] (action_attributes a)) eqn:Ea;
    destruct (GridWorld.row (view L w) <? GridWorld.height (view L w) - 1),
             (GridWorld.col (view L w) >=? 0),
             (GridWorld.col (view L w) <? GridWorld.width (view L w) - 1);
    cbn [app py_in existsb]; unfold Action_eq;
    cbn [action_attributes GridWorld.up GridWorld.down GridWorld.left
         GridWorld.right]; rewrite Ea; reflexivity.
Qed.

Lemma gridworld_react_eq {W : Type} (L : Lens W GridWorld.fields) (self : Env W)
    (w : W) (a : Action) :
  GridWorld.react L self w a
  = (legal <- get_actions self w ;;
     _ <- assert (py_in a legal) ;;
     if GridWorld.at_goal (view L w) then Ok (PInt 1, w)
     else Ok (PInt (-1), update L (gridworld_moved a (view L w)) w)).
Proof. reflexivity. Qed.

(** What a successful [react] has done. *)
Lemma gridworld_react_ok (n : nat) (f f' : GridWorld.fields) (a : Action)
    (r : pynum) :
  react (object GridWorld.class (2 + n)) f a = Ok (r, f') ->
  (exists legal, GridWorld.get_actions (lens_id _) f = Ok legal
                 /\ py_in a legal = true)
  /\ ((GridWorld.at_goal f = true /\ r = PInt 1 /\ f' = f)
      \/ (GridWorld.at_goal f = false /\ r = PInt (-1)
          /\ (f' = GridWorld.set_row (Z.max 0 (GridWorld.row f - 1)) f
              \/ f' = GridWorld.set_row
                        (Z.min (GridWorld.height f - 1) (GridWorld.row f + 1)) f
              \/ f' = GridWorld.set_col (Z.max 0 (GridWorld.col f - 1)) f
              \/ f' = GridWorld.set_col
                        (Z.min (GridWorld.width f - 1) (GridWorld.col f + 1)) f
              \/ f' = f))).
Proof.
  rewrite gridworld_react_depth. unfold GridWorld.react.
  cbn [get_actions GridWorld.methods view update lens_id].
  destruct (GridWorld.get_actions (lens_id _) f) as [legal|e] eqn:El;
    [|discriminate].
  cbn [bind]. destruct (py_in a legal) eqn:Ein; [|discriminate].
  cbn [assert bind]. intros E. split; [now exists legal|].
  destruct (GridWorld.at_goal f).
  - left. injection E as <- <-. auto.
  - right. split; [reflexivity|].
    repeat match type of E with
           | context [if ?c then _ else _] => destruct c
           end; injection E as <- <-; auto 10.
Qed.

(** X4.  A successful [react] keeps the position inside the grid, keeps
    the dimensions, the start and the goal, and its reward is [+1] or
    [-1]. *)
Theorem gridworld_react_stays_in_grid (n : nat) (f f' : GridWorld.fields)
    (a : Action) (r : pynum) :
  in_grid f ->
  react (object GridWorld.class (2 + n)) f a = Ok (r, f') ->
  in_grid f' /\ same_grid f f' /\ (r = PInt 1 \/ r = PInt (-1)).
Proof.
  intros [Hr Hc] E. apply gridworld_react_ok in E.
  destruct E as (_ & [(_ & -> & ->)|(_ & -> & Hf)]).
  - repeat split; auto; lia.
  - destruct Hf as [-> | [-> | [-> | [-> | ->]]]];
      unfold in_grid, same_grid; cbn; repeat split; auto; lia.
Qed.

Lemma gridworld_react_stays_in_grid_witness :
  in_grid (GridWorld.set_col 1 grid_3x1)
  /\ same_grid grid_3x1 (GridWorld.set_col 1 grid_3x1).
Proof.
  destruct (@gridworld_react_stays_in_grid 0 grid_3x1
              (GridWorld.set_col 1 grid_3x1) GridWorld.right (PInt (-1)))
    as (H1 & H2 & _).
  - unfold in_grid. cbn. lia.
  - reflexivity.
  - split; assumption.
Defined.

(** X5.  The reward of a successful [react] is [+1] exactly when the
    environment was already at the goal, that is when
    [get_observation()] was the terminal marker before the call; the
    call then changes nothing.  A step taken from a position that is
    observed, the one that reaches the goal included, is rewarded
    [-1]. *)
Theorem gridworld_plus_one_only_at_goal (n : nat) (f f' : GridWorld.fields)
    (a : Action) (r : pynum) :
  react (object GridWorld.class (2 + n)) f a = Ok (r, f') ->
  (r = PInt 1 <-> get_observation (object GridWorld.class (2 + n)) f = Ok None)
  /\ (r = PInt 1 -> f' = f)
  /\ (r = PInt 1 \/ r = PInt (-1)).
Proof.
  intros E. apply gridworld_react_ok in E.
  change (get_observation (object GridWorld.class (2 + n)) f)
    with (GridWorld.get_state (lens_id _) f).
  unfold GridWorld.get_state. cbn [view lens_id].
  destruct E as (_ & [(Hg & -> & ->)|(Hg & -> & _)]); rewrite Hg.
  - repeat split; auto.
  - repeat split; auto; discriminate.
Qed.

Lemma gridworld_plus_one_only_at_goal_witness :
  get_observation (object GridWorld.class 2) (GridWorld.set_col 1 grid_3x1)
  <> Ok None.
Proof.
  destruct (@gridworld_plus_one_only_at_goal 0 (GridWorld.set_col 1 grid_3x1)
              (GridWorld.set_col 2 grid_3x1) GridWorld.right (PInt (-1)) eq_refl)
    as (H & _).
  intros E. apply H in E. discriminate E.
Defined.

Lemma gridworld_react_all_same_grid (n : nat) (actions : list Action) :
  forall (f f' : GridWorld.fields) (rs : list pynum),
    react_all (object GridWorld.class (2 + n)) f actions = Ok (rs, f') ->
    same_grid f f' /\ Forall (fun r => r = PInt 1 \/ r = PInt (-1)) rs.
Proof.
  induction actions as [|a actions IH]; intros f f' rs E.
  - injection E as <- <-. repeat split. constructor.
  - cbn [react_all] in E.
    destruct (react (object GridWorld.class (2 + n)) f a) as [[r f1]|e] eqn:E1;
      [|discriminate].
    cbn [bind snd fst] in E.
    destruct (react_all (object GridWorld.class (2 + n)) f1 actions)
      as [[rs' f2]|e] eqn:E2; [|discriminate].
    cbn [bind snd fst] in E. injection E as <- <-.
    destruct (IH _ _ _ E2) as [(G1 & G2 & G3 & G4) Hrs].
    pose proof (gridworld_react_ok _ _ _ E1) as (_ & Hcase).
    assert (Hsame : same_grid f f1).
    { destruct Hcase as [(_ & _ & ->)|(_ & _ & [-> | [-> | [-> | [-> | ->]]]])];
        repeat split. }
    destruct Hsame as (S1 & S2 & S3 & S4).
    split; [repeat split; congruence|].
    constructor; [|exact Hrs].
    destruct Hcase as [(_ & -> & _)|(_ & -> & _)]; auto.
Qed.

(** X6.  Whatever actions the environment has reacted to since
    [GridWorld(width, height, start, goal)] was built, [reset()] and
    [new_episode()] succeed and put it back exactly as [__init__] left
    it. *)
Theorem gridworld_reset_restores_init (n : nat) (width height : Z)
    (start goal : list Z) (f0 f : GridWorld.fields) (actions : list Action)
    (rs : list pynum) :
  GridWorld.__init__ width height start goal = Ok f0 ->
  react_all (object GridWorld.class (2 + n)) f0 actions = Ok (rs, f) ->
  reset (object GridWorld.class (2 + n)) f = Ok f0
  /\ new_episode (object GridWorld.class (2 + n)) f = Ok f0.
Proof.
  intros Hinit Hrun.
  destruct (gridworld_react_all_same_grid _ _ _ Hrun) as [(S1 & S2 & S3 & S4) _].
  change (reset (object GridWorld.class (2 + n)) f)
    with (GridWorld.new_episode (lens_id _) f).
  change (new_episode (object GridWorld.class (2 + n)) f)
    with (GridWorld.new_episode (lens_id _) f).
  unfold GridWorld.__init__ in Hinit. unfold GridWorld.new_episode.
  cbn [view update lens_id].
  destruct (getitem start 0) as [r0|] eqn:E0; [|discriminate].
  destruct (getitem start 1) as [c0|] eqn:E1; [|discriminate].
  cbn [bind] in Hinit. injection Hinit as <-. cbn in S1, S2, S3, S4.
  rewrite S3, E0, E1. cbn [bind].
  destruct f as [w h st g r c]. cbn in *. subst. split; reflexivity.
Qed.

Lemma gridworld_reset_restores_init_witness :
  reset (object GridWorld.class 2) (GridWorld.set_col 2 grid_3x1) = Ok grid_3x1.
Proof.
  exact (proj1 (@gridworld_reset_restores_init 0 3 1 [0; 0] [0; 2] grid_3x1
                  (GridWorld.set_col 2 grid_3x1)
                  [GridWorld.right; GridWorld.right] [PInt (-1); PInt (-1)]
                  eq_refl eq_refl)).
Defined.

(** X7.  At a position of the grid, [react] accepts every action that
    carries no keyword attribute, whatever its name, and raises
    [AssertionError] for every action that carries one: the assertion
    compares actions by their attributes only.  An accepted action whose
    name is none of [up], [down], [left], [right] costs [-1] and moves
    nothing. *)
Theorem gridworld_react_accepts_by_attributes (n : nat) (f : GridWorld.fields)
    (a : Action) :
  in_grid f ->
  (action_attributes a = [] ->
   exists r f', react (object GridWorld.class (2 + n)) f a = Ok (r, f'))
  /\ (action_attributes a <> [] ->
      react (object GridWorld.class (2 + n)) f a = Raise AssertionError)
  /\ (action_attributes a = [] -> GridWorld.at_goal f = false ->
      name a <> "up" -> name a <> "down" -> name a <> "left" ->
      name a <> "right" ->
      react (object GridWorld.class (2 + n)) f a = Ok (PInt (-1), f)).
Proof.
  intros [Hr Hc].
  assert (Hreact : react (object GridWorld.class (2 + n)) f a
                   = if attrs_eqb [] (action_attributes a)
                     then if GridWorld.at_goal f then Ok (PInt 1, f)
                          else Ok (PInt (-1), gridworld_moved a f)
                     else Raise AssertionError).
  { rewrite gridworld_react_depth, gridworld_react_eq.
    cbn [get_actions GridWorld.methods view update lens_id].
    destruct (GridWorld.get_actions (lens_id _) f) as [legal|e] eqn:El;
      [|discriminate El].
    cbn [bind].
    rewrite (@gridworld_py_in_legal _ (lens_id _) f a legal ltac:(cbn; lia) El).
    destruct (attrs_eqb [] (action_attributes a)); reflexivity. }
  rewrite Hreact. split; [|split].
  - intros Ea. rewrite (proj2 (attrs_eqb_nil _) Ea).
    destruct (GridWorld.at_goal f); eauto.
  - intros Ea. destruct (attrs_eqb [] (action_attributes a)) eqn:E; [|reflexivity].
    apply attrs_eqb_nil in E. contradiction.
  - intros Ea Hg Hu Hd Hle Hri. rewrite (proj2 (attrs_eqb_nil _) Ea), Hg.
    unfold gridworld_moved.
    apply String.eqb_neq in Hu, Hd, Hle, Hri. now rewrite Hu, Hd, Hle, Hri.
Qed.

Lemma gridworld_react_accepts_by_attributes_witness :
  react (object GridWorld.class 2) grid_3x1 (mkAction "jump" [])
  = Ok (PInt (-1), grid_3x1)
  /\ react (object GridWorld.class 2) grid_3x1 (GatingMemory.gate 0 "row")
     = Raise AssertionError.
Proof.
  destruct (@gridworld_react_accepts_by_attributes 0 grid_3x1 (mkAction "jump" [])
              ltac:(unfold in_grid; cbn; lia)) as (_ & _ & H).
  destruct (@gridworld_react_accepts_by_attributes 0 grid_3x1
              (GatingMemory.gate 0 "row")
              ltac:(unfold in_grid; cbn; lia)) as (_ & H' & _).
  split.
  - apply H; try reflexivity; discriminate.
  - apply H'. discriminate.
Defined.

(** ** [TMaze]: construction, positions and episodes *)

(** X8.  [TMaze(length, hint_pos, hint_pos_2, redundant)] raises
    [AssertionError] unless [0 <= hint_pos <= length], a second hint
    (when given) lies in the same range, and [redundant] comes with
    [length >= 3] and a second hint; otherwise it succeeds, at the
    start of the corridor ([x = 0], [y = 0]) with a goal side in
    [{-1, 1}], and records its arguments. *)
Theorem tmaze_init_checks (length hint_pos : Z) (hint_pos_2 : option Z)
    (redundant : bool) (g : TMaze.rng) :
  TMaze.__init__ length hint_pos hint_pos_2 redundant g
  = (if tmaze_config_ok length hint_pos hint_pos_2 redundant
     then Ok (TMaze.draw_episode length hint_pos hint_pos_2 redundant g)
     else Raise AssertionError)
  /\ (forall f, TMaze.__init__ length hint_pos hint_pos_2 redundant g = Ok f ->
        in_maze f /\ TMaze.x f = 0 /\ TMaze.y f = 0
        /\ TMaze.length f = length /\ TMaze.hint_pos f = hint_pos
        /\ TMaze.hint_pos_2 f = hint_pos_2 /\ TMaze.redundant f = redundant
        /\ 0 <= hint_pos <= length).
Proof.
  assert (E : TMaze.__init__ length hint_pos hint_pos_2 redundant g
              = (if tmaze_config_ok length hint_pos hint_pos_2 redundant
                 then Ok (TMaze.draw_episode length hint_pos hint_pos_2 redundant g)
                 else Raise AssertionError)).
  { unfold TMaze.__init__, tmaze_config_ok, assert.
    destruct ((0 <=? hint_pos) && (hint_pos <=? length)); [|reflexivity].
    cbn [bind andb].
    destruct hint_pos_2 as [h2|].
    - destruct ((0 <=? h2) && (h2 <=? length)); [|reflexivity].
      cbn [bind andb]. destruct redundant; cbn [negb orb]; [|reflexivity].
      replace (length >=? 3) with (3 <=? length) by (symmetry; apply Z.geb_leb).
      destruct (3 <=? length); reflexivity.
    - cbn [bind andb]. destruct redundant; cbn [negb orb]; [|reflexivity].
      replace (length >=? 3) with (3 <=? length) by (symmetry; apply Z.geb_leb).
      destruct (3 <=? length); reflexivity. }
  split; [exact E|].
  intros f Hf. pose proof (tmaze_init_goal_x _ _ _ _ _ Hf) as Hg.
  rewrite E in Hf.
  destruct (tmaze_config_ok length hint_pos hint_pos_2 redundant) eqn:Hc;
    [|discriminate].
  injection Hf as <-.
  unfold tmaze_config_ok in Hc. rewrite !andb_true_iff in Hc.
  destruct Hc as [[[H1 H2] _] _].
  apply Z.leb_le in H1, H2.
  unfold TMaze.draw_episode in *.
  destruct (TMaze.choose_sign g) as [gx g1].
  destruct (TMaze.choose_sign g1) as [lc g2].
  cbn in *. unfold in_maze. cbn. repeat split; auto; lia.
Qed.

(** The outcome of [react] on an action of [get_actions()]. *)
Lemma tmaze_react_legal (n : nat) (f : TMaze.fields) (a : Action)
    (legal : list Action) :
  get_actions (object TMaze.class (1 + n)) f = Ok legal ->
  In a legal ->
  exists f',
    react (object TMaze.class (2 + n)) f a
    = Ok (if TMaze.y f' =? TMaze.length f
          then if TMaze.x f' =? TMaze.goal_x f then PInt 10
               else if TMaze.x f' =? - TMaze.goal_x f then PInt (-10)
                    else PInt (-1)
          else PInt (-1), f')
    /\ ((a = TMaze.up /\ TMaze.x f = 0 /\ TMaze.y f < TMaze.length f
         /\ f' = TMaze.set_xy (TMaze.x f) (TMaze.y f + 1) f)
        \/ (a = TMaze.left /\ TMaze.x f = 0 /\ TMaze.y f = TMaze.length f
            /\ f' = TMaze.set_xy (TMaze.x f - 1) (TMaze.y f) f)
        \/ (a = TMaze.right /\ TMaze.x f = 0 /\ TMaze.y f = TMaze.length f
            /\ f' = TMaze.set_xy (TMaze.x f + 1) (TMaze.y f) f)
        \/ (a = TMaze.halt /\ TMaze.x f <> 0 /\ f' = f)).
Proof.
  intros Hl Hin.
  change (get_actions (object TMaze.class (1 + n)) f)
    with (TMaze.get_actions (lens_id _) f) in Hl.
  change (react (object TMaze.class (2 + n)) f a)
    with (TMaze.react (lens_id _) (TMaze.methods (lens_id _) (abstract _)) f a).
  unfold TMaze.react. cbn [get_actions TMaze.methods]. rewrite Hl. cbn [bind].
  unfold TMaze.get_actions in Hl. cbn [view lens_id] in *.
  assert (Hcases :
    (a = TMaze.up /\ TMaze.x f = 0 /\ TMaze.y f < TMaze.length f)
    \/ (a = TMaze.left /\ TMaze.x f = 0 /\ TMaze.y f = TMaze.length f)
    \/ (a = TMaze.right /\ TMaze.x f = 0 /\ TMaze.y f = TMaze.length f)
    \/ (a = TMaze.halt /\ TMaze.x f <> 0)).
  { destruct (Z.eqb_spec (TMaze.x f) 0).
    - destruct (Z.ltb_spec (TMaze.y f) (TMaze.length f)).
      + injection Hl as <-. destruct Hin as [<-|[]]. auto.
      + destruct (Z.eqb_spec (TMaze.y f) (TMaze.length f)).
        * injection Hl as <-. destruct Hin as [<-|[<-|[]]]; auto 8.
        * injection Hl as <-. destruct Hin.
    - injection Hl as <-. destruct Hin as [<-|[]]. auto 8. }
  assert (Hpy : py_in a legal = true).
  { unfold py_in. apply existsb_exists. exists a. split; [assumption|].
    destruct Hcases as [(-> & _)|[(-> & _)|[(-> & _)|(-> & _)]]]; reflexivity. }
  rewrite Hpy. cbn [assert bind].
  destruct Hcases as [(-> & Hx & Hy)|[(-> & Hx & Hy)|[(-> & Hx & Hy)|(-> & Hx)]]];
    cbn [name TMaze.up TMaze.left TMaze.right TMaze.halt String.eqb Ascii.eqb
         Bool.eqb andb update lens_id];
    eexists; (split; [|eauto 10]);
    cbn [TMaze.x TMaze.y TMaze.length TMaze.goal_x TMaze.set_xy];
    repeat match goal with
           | |- context [?u =? ?v] => destruct (Z.eqb_spec u v)
           end; reflexivity.
Qed.

(** X9.  From a position of the maze, [get_actions()] is never empty;
    it is [[halt]] exactly when [get_observation()] is the terminal
    marker; and [react] on any of its actions succeeds, leaves the
    position in the maze and keeps the length, the hint positions and
    the hidden goal. *)
Theorem tmaze_react_stays_in_maze (n : nat) (f : TMaze.fields) :
  in_maze f ->
  exists legal,
    get_actions (object TMaze.class (1 + n)) f = Ok legal
    /\ legal <> []
    /\ (get_observation (object TMaze.class (2 + n)) f = Ok None
        <-> legal = [TMaze.halt])
    /\ (forall a, In a legal ->
          exists r f',
            react (object TMaze.class (2 + n)) f a = Ok (r, f')
            /\ in_maze f'
            /\ TMaze.length f' = TMaze.length f
            /\ TMaze.hint_pos f' = TMaze.hint_pos f
            /\ TMaze.hint_pos_2 f' = TMaze.hint_pos_2 f
            /\ TMaze.goal_x f' = TMaze.goal_x f
            /\ TMaze.logical_connective f' = TMaze.logical_connective f
            /\ TMaze.direction f' = TMaze.direction f).
Proof.
  intros (Hy & Hx & Hg).
  assert (Hlegal :
    exists legal, get_actions (object TMaze.class (1 + n)) f = Ok legal
                  /\ legal <> []
                  /\ (TMaze.x f <> 0 <-> legal = [TMaze.halt])).
  { change (get_actions (object TMaze.class (1 + n)) f)
      with (TMaze.get_actions (lens_id _) f).
    unfold TMaze.get_actions. cbn [view lens_id].
    destruct (Z.eqb_spec (TMaze.x f) 0) as [E0|E0].
    - destruct (Z.ltb_spec (TMaze.y f) (TMaze.length f)).
      + eexists. split; [reflexivity|]. split; [discriminate|].
        split; [tauto|discriminate].
      + destruct (Z.eqb_spec (TMaze.y f) (TMaze.length f)); [|lia].
        eexists. split; [reflexivity|]. split; [discriminate|].
        split; [tauto|discriminate].
    - eexists. split; [reflexivity|]. split; [discriminate|]. tauto. }
  destruct Hlegal as (legal & El & Hne & Hhalt).
  exists legal. split; [exact El|]. split; [exact Hne|]. split.
  - rewrite <- Hhalt.
    change (get_observation (object TMaze.class (2 + n)) f)
      with (TMaze.get_state (lens_id _) f).
    unfold TMaze.get_state. cbn [view lens_id].
    destruct (Z.eqb_spec (TMaze.y f) (TMaze.length f)) as [Ey|Ey];
      destruct (Z.eqb_spec (TMaze.x f) 0) as [Ex|Ex]; cbn [andb negb].
    + split; [|tauto]. intros E. exfalso.
      destruct (TMaze.hint_pos_2 f); repeat match type of E with
        | context [if ?c then _ else _] => destruct c
        end; discriminate E.
    + tauto.
    + split; [|tauto]. intros E. exfalso.
      destruct (TMaze.hint_pos_2 f); repeat match type of E with
        | context [if ?c then _ else _] => destruct c
        end; discriminate E.
    + exfalso. lia.
  - intros a Hin.
    destruct (tmaze_react_legal n f a El Hin) as (f' & Er & Hc).
    eexists. exists f'. split; [exact Er|].
    destruct Hc as [(_ & Ex & Ey & ->)|[(_ & Ex & Ey & ->)|[(_ & Ex & Ey & ->)|(_ & Ex & ->)]]];
      unfold in_maze; cbn [TMaze.x TMaze.y TMaze.length TMaze.goal_x
                           TMaze.hint_pos TMaze.hint_pos_2 TMaze.set_xy
                           TMaze.logical_connective TMaze.direction];
      repeat split; auto; try lia.
Qed.

Lemma tmaze_react_stays_in_maze_witness :
  exists legal,
    get_actions (object TMaze.class 1) tmaze_junction = Ok legal /\ legal <> [].
Proof.
  destruct (@tmaze_react_stays_in_maze 0 tmaze_junction) as (legal & H1 & H2 & _).
  - unfold in_maze. cbn. lia.
  - exists legal. split; assumption.
Defined.

Lemma tmaze_set_xy_same (f : TMaze.fields) :
  TMaze.set_xy (TMaze.x f) (TMaze.y f) f = f.
Proof. now destruct f. Qed.

Lemma react_all_ok_eta {W : Type} (m : result (list pynum * W)) :
  (res <- m ;; Ok (fst res, snd res)) = m.
Proof. now destruct m as [[rs w]|e]. Qed.

(** Walking up the corridor: each step is rewarded [-1]. *)
Lemma tmaze_walk_up (n : nat) (k : nat) :
  forall (f : TMaze.fields) (rest : list Action),
    TMaze.x f = 0 ->
    TMaze.y f + Z.of_nat k <= TMaze.length f ->
    TMaze.goal_x f = 1 \/ TMaze.goal_x f = -1 ->
    react_all (object TMaze.class (2 + n)) f (repeat TMaze.up k ++ rest)
    = (res <- react_all (object TMaze.class (2 + n))
                        (TMaze.set_xy 0 (TMaze.y f + Z.of_nat k) f) rest ;;
       Ok (repeat (PInt (-1)) k ++ fst res, snd res)).
Proof.
  induction k as [|k IH]; intros f rest Hx Hy Hg.
  - cbn [repeat app]. rewrite Z.add_0_r, <- Hx, tmaze_set_xy_same.
    now rewrite react_all_ok_eta.
  - cbn [repeat app react_all].
    assert (El : get_actions (object TMaze.class (1 + n)) f = Ok [TMaze.up]).
    { change (get_actions (object TMaze.class (1 + n)) f)
        with (TMaze.get_actions (lens_id _) f).
      unfold TMaze.get_actions. cbn [view lens_id]. rewrite Hx. cbn.
      destruct (Z.ltb_spec (TMaze.y f) (TMaze.length f)); [reflexivity|lia]. }
    destruct (tmaze_react_legal n f TMaze.up El (or_introl eq_refl))
      as (f' & Er & Hc).
    assert (Ef : f' = TMaze.set_xy 0 (TMaze.y f + 1) f).
    { destruct Hc as [(_ & _ & _ & ->)|[(E & _)|[(E & _)|(E & _)]]];
        try discriminate E. now rewrite Hx. }
    subst f'. rewrite Er. cbn [bind fst snd].
    cbn [TMaze.x TMaze.y TMaze.set_xy].
    rewrite IH; cbn [TMaze.x TMaze.y TMaze.length TMaze.goal_x TMaze.set_xy];
      [|reflexivity|lia|exact Hg].
    replace (TMaze.y f + 1 + Z.of_nat k)
      with (TMaze.y f + Z.of_nat (Datatypes.S k)) by lia.
    change (TMaze.set_xy 0 (TMaze.y f + Z.of_nat (Datatypes.S k))
                         (TMaze.set_xy 0 (TMaze.y f + 1) f))
      with (TMaze.set_xy 0 (TMaze.y f + Z.of_nat (Datatypes.S k)) f).
    destruct (react_all (object TMaze.class (2 + n))
                (TMaze.set_xy 0 (TMaze.y f + Z.of_nat (Datatypes.S k)) f) rest)
      as [[rs w]|e]; cbn [bind fst snd]; [|reflexivity].
    do 2 f_equal. f_equal.
    destruct (Z.eqb_spec (TMaze.y f + 1) (TMaze.length f)); [|reflexivity].
    destruct (Z.eqb_spec 0 (TMaze.goal_x f)); [lia|].
    destruct (Z.eqb_spec 0 (- TMaze.goal_x f)); [lia|reflexivity].
Qed.

(** X10.  A whole episode: from the start of the corridor, [length]
    steps [up] and then the step to one side of the junction are all
    accepted; every step [up] is rewarded [-1] and the last step [+10]
    if the side is the hidden [goal_x] and [-10] if it is the other
    one; the observation is then the terminal marker. *)
Theorem tmaze_episode_return (n : nat) (f : TMaze.fields) (side : Z) :
  in_maze f -> TMaze.x f = 0 -> TMaze.y f = 0 ->
  side = 1 \/ side = -1 ->
  react_all (object TMaze.class (2 + n)) f
            (repeat TMaze.up (Z.to_nat (TMaze.length f)) ++ [side_action side])
  = Ok (repeat (PInt (-1)) (Z.to_nat (TMaze.length f))
        ++ [if side =? TMaze.goal_x f then PInt 10 else PInt (-10)],
        TMaze.set_xy side (TMaze.length f) f)
  /\ get_observation (object TMaze.class (2 + n))
                     (TMaze.set_xy side (TMaze.length f) f) = Ok None.
Proof.
  intros (Hy & _ & Hg) Hx Hy0 Hside. split.
  - rewrite tmaze_walk_up by (try assumption; lia).
    rewrite Hy0, Z.add_0_l, Z2Nat.id by lia.
    set (f1 := TMaze.set_xy 0 (TMaze.length f) f).
    assert (El : get_actions (object TMaze.class (1 + n)) f1
                 = Ok [TMaze.left; TMaze.right]).
    { change (get_actions (object TMaze.class (1 + n)) f1)
        with (TMaze.get_actions (lens_id _) f1).
      unfold TMaze.get_actions, f1. cbn [view lens_id TMaze.x TMaze.y
                                         TMaze.length TMaze.set_xy].
      cbn [Z.eqb]. rewrite Z.ltb_irrefl, Z.eqb_refl. reflexivity. }
    assert (Hin : In (side_action side) [TMaze.left; TMaze.right]).
    { unfold side_action. destruct (side =? 1); cbn; auto. }
    destruct (tmaze_react_legal n f1 (side_action side) El Hin)
      as (f' & Er & Hc).
    assert (Ef : f' = TMaze.set_xy side (TMaze.length f) f).
    { unfold side_action in Hc.
      destruct Hside as [-> | ->]; cbn [Z.eqb Pos.eqb] in Hc;
        destruct Hc as [(E & _)|[(E & _ & _ & ->)|[(E & _ & _ & ->)|(E & _)]]];
        try discriminate E; reflexivity. }
    subst f'. cbn [react_all]. rewrite Er. cbn [bind fst snd app].
    cbn [TMaze.x TMaze.y TMaze.length TMaze.goal_x TMaze.set_xy f1].
    rewrite Z.eqb_refl. do 2 f_equal. f_equal.
    destruct (Z.eqb_spec side (TMaze.goal_x f)); [reflexivity|].
    destruct (Z.eqb_spec side (- TMaze.goal_x f)); [reflexivity|lia].
  - change (get_observation (object TMaze.class (2 + n))
                            (TMaze.set_xy side (TMaze.length f) f))
      with (TMaze.get_state (lens_id _) (TMaze.set_xy side (TMaze.length f) f)).
    unfold TMaze.get_state.
    cbn [view lens_id TMaze.x TMaze.y TMaze.length TMaze.set_xy].
    rewrite Z.eqb_refl.
    destruct (Z.eqb_spec side 0); [lia|reflexivity].
Qed.

Lemma tmaze_episode_return_witness :
  react_all (object TMaze.class 2) (TMaze.draw_episode 3 1 None false first_item_rng)
            [TMaze.up; TMaze.up; TMaze.up; TMaze.left]
  = Ok ([PInt (-1); PInt (-1); PInt (-1); PInt 10], tmaze_junction_left).
Proof.
  exact (proj1 (@tmaze_episode_return 0
                  (TMaze.draw_episode 3 1 None false first_item_rng) (-1)
                  ltac:(unfold in_maze; cbn; lia) eq_refl eq_refl
                  (or_intror eq_refl))).
Defined.

(** X11.  [new_episode()] and [reset()] succeed and do the same: the
    position is back at the start, the length, the hint positions and
    the [redundant] flag are kept, the goal side and the two hints are
    drawn anew in [{-1, 1}] with [direction * logical_connective =
    goal_x], and the redundant hints are their opposites when
    [redundant] is set and [None] otherwise. *)
Theorem tmaze_new_episode_redraws (n : nat) (f : TMaze.fields) :
  exists f',
    new_episode (object TMaze.class (2 + n)) f = Ok f'
    /\ reset (object TMaze.class (2 + n)) f = Ok f'
    /\ TMaze.x f' = 0 /\ TMaze.y f' = 0
    /\ TMaze.length f' = TMaze.length f
    /\ TMaze.hint_pos f' = TMaze.hint_pos f
    /\ TMaze.hint_pos_2 f' = TMaze.hint_pos_2 f
    /\ TMaze.redundant f' = TMaze.redundant f
    /\ (TMaze.goal_x f' = 1 \/ TMaze.goal_x f' = -1)
    /\ (TMaze.logical_connective f' = 1 \/ TMaze.logical_connective f' = -1)
    /\ TMaze.direction f' * TMaze.logical_connective f' = TMaze.goal_x f'
    /\ TMaze.redundant_connective f'
       = (if TMaze.redundant f then Some (- TMaze.logical_connective f')
          else None)
    /\ TMaze.redundant_direction f'
       = (if TMaze.redundant f then Some (- TMaze.direction f') else None).
Proof.
  eexists. split; [reflexivity|]. split; [reflexivity|].
  cbn [view update lens_id]. unfold TMaze.draw_episode.
  pose proof (choose_sign_range (TMaze.generator f)) as H1.
  destruct (TMaze.choose_sign (TMaze.generator f)) as [gx g1].
  pose proof (choose_sign_range g1) as H2.
  destruct (TMaze.choose_sign g1) as [lc g2].
  cbn [fst] in H1, H2.
  cbn [TMaze.x TMaze.y TMaze.length TMaze.hint_pos TMaze.hint_pos_2
       TMaze.redundant TMaze.goal_x TMaze.logical_connective TMaze.direction
       TMaze.redundant_connective TMaze.redundant_direction].
  repeat split; auto.
  destruct H1 as [-> | ->], H2 as [-> | ->]; reflexivity.
Qed.

(** X12.  With a single hint, the observation shows the hidden goal
    side at [y = hint_pos] and nowhere else: away from the hint, two
    mazes that differ in what was drawn are observed alike, and at the
    hint (the episode not being over) the field [symbol] is [goal_x]. *)
Theorem tmaze_goal_shown_at_hint_only (n : nat) (f1 f2 : TMaze.fields) :
  TMaze.hint_pos_2 f1 = None -> TMaze.hint_pos_2 f2 = None ->
  TMaze.length f1 = TMaze.length f2 -> TMaze.hint_pos f1 = TMaze.hint_pos f2 ->
  TMaze.x f1 = TMaze.x f2 -> TMaze.y f1 = TMaze.y f2 ->
  (TMaze.y f1 <> TMaze.hint_pos f1 ->
   get_observation (object TMaze.class (2 + n)) f1
   = get_observation (object TMaze.class (2 + n)) f2)
  /\ (TMaze.y f1 = TMaze.hint_pos f1 ->
      TMaze.x f1 = 0 \/ TMaze.y f1 <> TMaze.length f1 ->
      get_observation (object TMaze.class (2 + n)) f1
      = Ok (Some (State [("x", VInt (TMaze.x f1)); ("y", VInt (TMaze.y f1));
                         ("symbol", VInt (TMaze.goal_x f1))]))).
Proof.
  intros H1 H2 Hl Hh Hx Hy.
  change (get_observation (object TMaze.class (2 + n)) f1)
    with (TMaze.get_state (lens_id _) f1).
  change (get_observation (object TMaze.class (2 + n)) f2)
    with (TMaze.get_state (lens_id _) f2).
  unfold TMaze.get_state, TMaze.observe. cbn [view lens_id].
  rewrite H1, H2, <- Hl, <- Hh, <- Hx, <- Hy. split.
  - intros Hne.
    destruct ((TMaze.y f1 =? TMaze.length f1) && negb (TMaze.x f1 =? 0));
      [reflexivity|].
    destruct (Z.eqb_spec (TMaze.y f1) (TMaze.hint_pos f1)); [contradiction|].
    reflexivity.
  - intros He Hnt.
    destruct (Z.eqb_spec (TMaze.y f1) (TMaze.length f1)) as [Ey|Ey];
      destruct (Z.eqb_spec (TMaze.x f1) 0) as [Ex|Ex]; cbn [andb negb];
      try (exfalso; lia); rewrite He, Z.eqb_refl; reflexivity.
Qed.

Lemma tmaze_goal_shown_at_hint_only_witness :
  get_observation (object TMaze.class 2)
                  (TMaze.draw_episode 3 1 None false first_item_rng)
  = get_observation (object TMaze.class 2)
                    (TMaze.draw_episode 3 1 None false second_item_rng).
Proof.
  apply (proj1 (@tmaze_goal_shown_at_hint_only 0
                  (TMaze.draw_episode 3 1 None false first_item_rng)
                  (TMaze.draw_episode 3 1 None false second_item_rng)
                  eq_refl eq_refl eq_refl eq_refl eq_refl eq_refl)).
  discriminate.
Defined.

(** ** [gating_memory]: observations, slots and errors *)

Lemma memory_name_prefix (i : nat) :
  String.prefix "memory_" (GatingMemory.memory_name i) = true.
Proof.
  unfold GatingMemory.memory_name. cbn.
  now destruct (NilZero.string_of_uint (Nat.to_uint i)).
Qed.

Lemma filter_memory_fields (idxs : list nat) :
  forall ms : list value,
    filter (fun kv : string * value => negb (String.prefix "memory_" (fst kv)))
           (combine (map GatingMemory.memory_name idxs) ms) = [].
Proof.
  induction idxs as [|i idxs IH]; intros [|m ms]; cbn [map combine filter];
    try reflexivity.
  cbn [fst]. rewrite memory_name_prefix. cbn [negb]. apply IH.
Qed.

Lemma filter_twice {A : Type} (p : A -> bool) (l : list A) :
  filter p (filter p l) = filter p l.
Proof.
  induction l as [|x l IH]; cbn [filter]; [reflexivity|].
  destruct (p x) eqn:E; cbn [filter]; [rewrite E|]; now rewrite IH.
Qed.

Lemma with_memories_idempotent {F W : Type} (k : nat)
    (L : Lens W (GatingMemory.fields F)) (w : W) (obs : observation) :
  GatingMemory.with_memories k L w (GatingMemory.with_memories k L w obs)
  = GatingMemory.with_memories k L w obs.
Proof.
  destruct obs as [st|]; [|reflexivity].
  unfold GatingMemory.with_memories, as_dict. cbn [_attributes_].
  now rewrite filter_app, filter_memory_fields, filter_twice.
Qed.

(** X13.  Memory fields are replaced, not accumulated: putting the
    memory fields on an observation that already carries them gives the
    same observation.  So on the wrapped [GridWorld] and the wrapped
    [TMaze], whose [get_observation] goes through the wrapper's own
    [get_state], [get_observation()] and [get_state()] agree; for
    [GridWorld] away from the goal the observation is the [k] memory
    fields followed by [row] and [col]. *)
Theorem gating_observation_has_memory_once (n k : nat) (reward : pynum) :
  (forall (F W : Type) (L : Lens W (GatingMemory.fields F)) (w : W)
          (obs : observation),
      GatingMemory.with_memories k L w (GatingMemory.with_memories k L w obs)
      = GatingMemory.with_memories k L w obs)
  /\ (forall w : GatingMemory.fields GridWorld.fields,
        get_observation (object (GatingMemory.class GridWorld.class reward k) (3 + n)) w
        = get_state (object (GatingMemory.class GridWorld.class reward k) (3 + n)) w)
  /\ (forall w : GatingMemory.fields TMaze.fields,
        get_observation (object (GatingMemory.class TMaze.class reward k) (3 + n)) w
        = get_state (object (GatingMemory.class TMaze.class reward k) (3 + n)) w)
  /\ (forall w : GatingMemory.fields GridWorld.fields,
        GridWorld.at_goal (GatingMemory.base w) = false ->
        get_observation (object (GatingMemory.class GridWorld.class reward k) (3 + n)) w
        = Ok (Some (mkAttrDict KAttrDict
                      (combine (map GatingMemory.memory_name (seq 0 k))
                               (GatingMemory.memories w)
                       ++ [("row", VInt (GridWorld.row (GatingMemory.base w)));
                           ("col", VInt (GridWorld.col (GatingMemory.base w)))])))).
Proof.
  split; [intros; apply with_memories_idempotent|].
  assert (HG : forall w : GatingMemory.fields GridWorld.fields,
             get_observation
               (object (GatingMemory.class GridWorld.class reward k) (3 + n)) w
             = (st <- GridWorld.get_state (GatingMemory.base_lens _) w ;;
                Ok (GatingMemory.with_memories k (lens_id _) w st))).
  { intros w.
    change (get_observation
              (object (GatingMemory.class GridWorld.class reward k) (3 + n)) w)
      with (obs <- (st <- GridWorld.get_state (GatingMemory.base_lens _) w ;;
                    Ok (GatingMemory.with_memories k (lens_id _) w st)) ;;
            Ok (GatingMemory.with_memories k (lens_id _) w obs)).
    destruct (GridWorld.get_state (GatingMemory.base_lens _) w) as [st|e];
      cbn [bind]; [|reflexivity].
    now rewrite with_memories_idempotent. }
  split; [|split].
  - intros w. rewrite HG. reflexivity.
  - intros w.
    change (get_observation
              (object (GatingMemory.class TMaze.class reward k) (3 + n)) w)
      with (obs <- (st <- TMaze.get_state (GatingMemory.base_lens _) w ;;
                    Ok (GatingMemory.with_memories k (lens_id _) w st)) ;;
            Ok (GatingMemory.with_memories k (lens_id _) w obs)).
    change (get_state
              (object (GatingMemory.class TMaze.class reward k) (3 + n)) w)
      with (st <- TMaze.get_state (GatingMemory.base_lens _) w ;;
            Ok (GatingMemory.with_memories k (lens_id _) w st)).
    destruct (TMaze.get_state (GatingMemory.base_lens _) w) as [st|e];
      cbn [bind]; [|reflexivity].
    now rewrite with_memories_idempotent.
  - intros w Hg. rewrite HG. unfold GridWorld.get_state.
    cbn [view GatingMemory.base_lens]. rewrite Hg. reflexivity.
Qed.

Lemma list_setitem_in_range {A : Type} (l : list A) (i : Z) (v : A) :
  - Z.of_nat (List.length l) <= i < Z.of_nat (List.length l) ->
  let j := Z.to_nat (if i <? 0 then i + Z.of_nat (List.length l) else i) in
  exists l',
    GatingMemory.list_setitem l i v = Ok l'
    /\ List.length l' = List.length l
    /\ nth_error l' j = Some v
    /\ (forall j', j' <> j -> nth_error l' j' = nth_error l j').
Proof.
  intros Hi j. unfold GatingMemory.list_setitem. fold j.
  assert (Hj : (j < List.length l)%nat)
    by (subst j; destruct (Z.ltb_spec i 0); lia).
  replace ((0 <=? (if i <? 0 then i + Z.of_nat (List.length l) else i))
           && ((if i <? 0 then i + Z.of_nat (List.length l) else i)
               <? Z.of_nat (List.length l))) with true
    by (symmetry; apply andb_true_iff; split;
        [apply Z.leb_le | apply Z.ltb_lt]; destruct (Z.ltb_spec i 0); lia).
  eexists. split; [reflexivity|].
  assert (Hf : List.length (firstn j l) = j)
    by (rewrite length_firstn; lia).
  split; [|split].
  - rewrite length_app, Hf. cbn [List.length]. rewrite length_skipn. lia.
  - rewrite nth_error_app2, Hf, Nat.sub_diag by lia. reflexivity.
  - intros j' Hne. destruct (Nat.lt_ge_cases j' j) as [Hlt|Hge].
    + rewrite nth_error_app1 by lia. rewrite nth_error_firstn.
      destruct (Nat.ltb_spec j' j); [reflexivity|lia].
    + rewrite nth_error_app2, Hf by lia.
      destruct (j' - j)%nat as [|d] eqn:Ed; [lia|].
      cbn [nth_error]. rewrite nth_error_skipn. f_equal. lia.
Qed.


Section GateOutcomes.
Context {F : Type} (cls : Class F) (reward : pynum) (k : nat).
Context {W : Type} (L : Lens W (GatingMemory.fields F)) (self : Env W).

Let super := GatingMemory.super cls L self.
Let wrapper := GatingMemory.methods cls reward k L self.


End GateOutcomes.

(** ** [gating_memory] over [GridWorld] *)

Lemma wrapped_gridworld_actions (n k : nat) (reward : pynum)
    (w : GatingMemory.fields GridWorld.fields) :
  exists legal extra,
    GridWorld.get_actions (lens_id _) (GatingMemory.base w) = Ok legal
    /\ get_actions (object (GatingMemory.class GridWorld.class reward k) (2 + n)) w
       = Ok (legal ++ extra).
Proof.
  cbn -[GridWorld.get_actions GridWorld.get_state GatingMemory.with_memories].
  unfold GatingMemory.get_actions.
  cbn -[GridWorld.get_actions GridWorld.get_state GatingMemory.with_memories].
  unfold GatingMemory.get_state.
  cbn -[GridWorld.get_actions GridWorld.get_state GatingMemory.with_memories].
  change (GridWorld.get_actions
            (lens_compose (lens_id _) (GatingMemory.base_lens GridWorld.fields)) w)
    with (GridWorld.get_actions (lens_id _) (GatingMemory.base w)).
  destruct (GridWorld.get_actions (lens_id _) (GatingMemory.base w))
    as [legal|e] eqn:El; [|discriminate El].
  exists legal. cbn [bind]. unfold GridWorld.get_state.
  destruct (GridWorld.at_goal _); cbn [bind GatingMemory.with_memories].
  - exists []. now rewrite app_nil_r.
  - eexists. split; reflexivity.
Qed.

Lemma wrapped_gridworld_react (n k : nat) (reward : pynum)
    (w : GatingMemory.fields GridWorld.fields) (a : Action) :
  name a <> "gate" ->
  react (object (GatingMemory.class GridWorld.class reward k) (3 + n)) w a
  = (legal <- get_actions
                (object (GatingMemory.class GridWorld.class reward k) (2 + n)) w ;;
     _ <- assert (py_in a legal) ;;
     if GridWorld.at_goal (GatingMemory.base w) then Ok (PInt 1, w)
     else Ok (PInt (-1),
              GatingMemory.mkFields (gridworld_moved a (GatingMemory.base w))
                                    (GatingMemory.memories w))).
Proof.
  intros Hname. apply String.eqb_neq in Hname.
  change (react (object (GatingMemory.class GridWorld.class reward k) (3 + n)) w a)
    with (GatingMemory.react GridWorld.class reward (lens_id _)
            (object (GatingMemory.class GridWorld.class reward k) (2 + n)) w a).
  unfold GatingMemory.react. rewrite Hname.
  unfold GatingMemory.super, GridWorld.class.
  cbn [react GridWorld.methods]. rewrite gridworld_react_eq. reflexivity.
Qed.

(** X15.  Over [GridWorld], an action whose name is not [gate] reaches
    [GridWorld.react]: the memory slots, the dimensions, the start and
    the goal are left as they are, and for an action without
    attributes the reward and the new position are those the
    unwrapped environment gives at the same position. *)
Theorem gating_forwards_other_actions (n k : nat) (reward : pynum)
    (w w' : GatingMemory.fields GridWorld.fields) (a : Action) (r : pynum) :
  name a <> "gate" ->
  react (object (GatingMemory.class GridWorld.class reward k) (3 + n)) w a
  = Ok (r, w') ->
  GatingMemory.memories w' = GatingMemory.memories w
  /\ same_grid (GatingMemory.base w) (GatingMemory.base w')
  /\ (action_attributes a = [] -> 0 <= GridWorld.row (GatingMemory.base w) ->
      react (object GridWorld.class (2 + n)) (GatingMemory.base w) a
      = Ok (r, GatingMemory.base w')).
Proof.
  intros Hname E. rewrite wrapped_gridworld_react in E by assumption.
  destruct (wrapped_gridworld_actions n k reward w) as (legal & extra & El & Ew).
  rewrite Ew in E. cbn [bind] in E.
  destruct (py_in a (legal ++ extra)) eqn:Ein; [|discriminate E].
  cbn [assert bind] in E.
  assert (Hplain : action_attributes a = [] ->
                   0 <= GridWorld.row (GatingMemory.base w) ->
                   react (object GridWorld.class (2 + n)) (GatingMemory.base w) a
                   = if GridWorld.at_goal (GatingMemory.base w)
                     then Ok (PInt 1, GatingMemory.base w)
                     else Ok (PInt (-1), gridworld_moved a (GatingMemory.base w))).
  { intros Ea Hrow. rewrite gridworld_react_depth, gridworld_react_eq.
    cbn [get_actions GridWorld.methods view update lens_id].
    rewrite El. cbn [bind].
    rewrite (@gridworld_py_in_legal _ (lens_id _) (GatingMemory.base w) a legal
               Hrow El), Ea.
    reflexivity. }
  destruct (GridWorld.at_goal (GatingMemory.base w)).
  - injection E as <- <-. repeat split. intros Ea Hrow. now apply Hplain.
  - injection E as <- <-. cbn [GatingMemory.memories GatingMemory.base].
    split; [reflexivity|]. split.
    + unfold gridworld_moved, same_grid.
      repeat match goal with
             | |- context [if ?c then _ else _] => destruct c
             end; repeat split.
    + intros Ea Hrow. now apply Hplain.
Qed.

Lemma gating_forwards_other_actions_witness :
  react (object GridWorld.class 2) grid_3x1 GridWorld.right
  = Ok (PInt (-1), GridWorld.set_col 1 grid_3x1).
Proof.
  exact (proj2 (proj2
           (@gating_forwards_other_actions 0 2 (PInt 0)
              (GatingMemory.mkFields grid_3x1 [VInt 7; VNone])
              (GatingMemory.mkFields (GridWorld.set_col 1 grid_3x1) [VInt 7; VNone])
              GridWorld.right (PInt (-1))
              ltac:(discriminate) eq_refl))
           eq_refl ltac:(cbn; lia)).
Defined.

(** X16.  Over [GridWorld], [reset()] and [new_episode()] of the
    wrapper both put the position back at the start and set each of
    the [k] slots to [None], whatever the slots held. *)
Theorem gating_gridworld_reset (n k : nat) (reward : pynum)
    (w : GatingMemory.fields GridWorld.fields) (r0 c0 : Z) :
  getitem (GridWorld.start (GatingMemory.base w)) 0 = Ok r0 ->
  getitem (GridWorld.start (GatingMemory.base w)) 1 = Ok c0 ->
  let fresh :=
    GatingMemory.mkFields
      (GridWorld.set_col c0 (GridWorld.set_row r0 (GatingMemory.base w)))
      (repeat VNone k) in
  reset (object (GatingMemory.class GridWorld.class reward k) (3 + n)) w = Ok fresh
  /\ new_episode (object (GatingMemory.class GridWorld.class reward k) (3 + n)) w
     = Ok fresh
  /\ List.length (GatingMemory.memories fresh) = k.
Proof.
  intros H0 H1 fresh.
  assert (E : GridWorld.new_episode
                (lens_compose (lens_id _) (GatingMemory.base_lens GridWorld.fields)) w
              = Ok (GatingMemory.mkFields
                      (GridWorld.set_col c0 (GridWorld.set_row r0 (GatingMemory.base w)))
                      (GatingMemory.memories w))).
  { unfold GridWorld.new_episode.
    cbn [view update lens_compose lens_id GatingMemory.base_lens].
    rewrite H0, H1. reflexivity. }
  split; [|split].
  - cbn -[GridWorld.new_episode repeat]. unfold GatingMemory.reset.
    cbn -[GridWorld.new_episode repeat]. unfold GatingMemory.new_episode.
    cbn -[GridWorld.new_episode repeat]. rewrite E. reflexivity.
  - cbn -[GridWorld.new_episode repeat]. unfold GatingMemory.new_episode.
    cbn -[GridWorld.new_episode repeat]. rewrite E. reflexivity.
  - subst fresh. cbn [GatingMemory.memories]. apply repeat_length.
Qed.

Lemma gating_gridworld_reset_witness :
  reset (object (GatingMemory.class GridWorld.class (PInt 0) 2) 3)
        (GatingMemory.mkFields (GridWorld.set_col 1 grid_3x1) [VInt 7; VNone])
  = Ok (GatingMemory.mkFields grid_3x1 [VNone; VNone]).
Proof.
  exact (proj1 (@gating_gridworld_reset 0 2 (PInt 0)
                  (GatingMemory.mkFields (GridWorld.set_col 1 grid_3x1)
                                         [VInt 7; VNone])
                  0 0 eq_refl eq_refl)).
Defined.

(** ** [TabularQLearningAgent]: what reads and updates leave alone *)

Lemma act_key_eqb_euclid (c a b : action_opt) :
  act_key_eqb c a = true -> act_key_eqb c b = true -> act_key_eqb a b = true.
Proof.
  destruct c as [[cn cd]|], a as [[an ad]|], b as [[bn bd]|];
    unfold act_key_eqb, opt_eqb; try discriminate; try reflexivity.
  unfold Action_key_eqb, Action_eq. cbn [name action_attributes].
  rewrite !andb_true_iff, !String.eqb_eq.
  intros [-> Ha] [-> Hb]. split; [reflexivity|].
  eapply attrs_eqb_euclid; eassumption.
Qed.

Lemma dict_get_set_cases {K V : Type} (keq : K -> K -> bool) (k o : K)
    (v v0 : V) (d : pydict K V) :
  dict_get keq k d = Some v0 ->
  dict_get keq o (dict_set keq k v d) = dict_get keq o d
  \/ (dict_get keq o d = Some v0 /\ dict_get keq o (dict_set keq k v d) = Some v).
Proof.
  induction d as [|[k' v'] d IH]; cbn [dict_get dict_set]; [discriminate|].
  destruct (keq k' k) eqn:E1.
  - intros [= ->]. cbn [dict_get]. destruct (keq k' o); auto.
  - intros Hd. cbn [dict_get]. destruct (keq k' o); auto.
Qed.

Section AgentFrame.
Context {R : Type} `{PyNumber R}.

(** A read keeps every stored estimate and every value of [Q]. *)
Lemma get_value_keeps_Q (o : observation) (a : action_opt)
    (ag : TabularQLearningAgent R) (o' : observation) (a' : action_opt) :
  Q (value_function (snd (get_value o a ag))) o' a' = Q (value_function ag) o' a'
  /\ (forall v, stored (value_function ag) o' a' = Some v ->
                stored (value_function (snd (get_value o a ag))) o' a' = Some v).
Proof.
  destruct (get_value_table o a ag) as [->|(rw & Er & Ea & ->)]; [auto|].
  unfold Q, stored.
  destruct (@dict_get_set_cases observation (row R) obs_key_eqb o o'
              (rw ++ [(a, zero)]) rw (value_function ag) Er) as [E|[E1 E2]];
    unfold table, row, pydict in *.
  { rewrite E. auto. }
  rewrite E2, E1, dict_get_app. cbn [dict_get].
  destruct (dict_get act_key_eqb a' rw) as [x|]; [auto|].
  split; [|discriminate]. now destruct (act_key_eqb a a').
Qed.

Lemma get_best_value_keeps_Q (o : observation) (ag : TabularQLearningAgent R)
    (o' : observation) (a' : action_opt) :
  Q (value_function (snd (get_best_value o ag))) o' a' = Q (value_function ag) o' a'.
Proof.
  unfold get_best_value. rewrite get_best_action_spec.
  apply get_value_keeps_Q.
Qed.

Lemma table_setitem_keeps_Q (po o' : observation) (pa a' : action_opt) (v : R)
    (vf : table R) :
  obs_key_eqb po o' = false \/ act_key_eqb pa a' = false ->
  Q (table_setitem po pa v vf) o' a' = Q vf o' a'.
Proof.
  intros Hne. unfold Q, stored, table_setitem.
  destruct (dict_get obs_key_eqb po vf) as [r|] eqn:Er.
  - destruct (obs_key_eqb po o') eqn:Eo.
    + destruct Hne as [Hne|Hne]; [discriminate|].
      destruct (@dict_get_set_cases observation (row R) obs_key_eqb po o'
                  (dict_set act_key_eqb pa v r) r vf Er) as [E|[E1 E2]];
        unfold table, row, pydict in *.
      { now rewrite E. }
      rewrite E2, E1, dict_get_set_other; [reflexivity| |exact Hne].
      intros c. apply act_key_eqb_euclid.
    + rewrite dict_get_set_other; [reflexivity| |exact Eo].
      intros c. apply obs_key_eqb_euclid.
  - rewrite (dict_set_absent obs_key_eqb po _ vf Er), dict_get_app.
    destruct (dict_get obs_key_eqb o' vf) as [r'|]; [reflexivity|].
    cbn [dict_get]. destruct (obs_key_eqb po o') eqn:Eo; [|reflexivity].
    destruct Hne as [Hne|Hne]; [discriminate|].
    cbn [dict_set dict_get]. now rewrite Hne.
Qed.

Lemma observe_reward_keeps_Q (o : observation) (r : R)
    (ag : TabularQLearningAgent R) (o' : observation) (a' : action_opt) :
  obs_key_eqb (prev_observation ag) o' = false
  \/ act_key_eqb (prev_action ag) a' = false ->
  Q (value_function (_observe_reward o r ag)) o' a' = Q (value_function ag) o' a'.
Proof.
  intros Hne. unfold _observe_reward.
  pose proof (get_value_keeps_Q (prev_observation ag) (prev_action ag) ag o' a')
    as [Hq1 _].
  pose proof (get_value_frame (prev_observation ag) (prev_action ag) ag) as Hf1.
  destruct (get_value (prev_observation ag) (prev_action ag) ag) as [pv ag1].
  cbn [snd] in Hq1, Hf1.
  pose proof (get_best_value_keeps_Q o ag1 o' a') as Hq2.
  pose proof (get_best_value_frame o ag1) as Hf2.
  destruct (get_best_value o ag1) as [bv ag2]. cbn [snd] in Hq2, Hf2.
  destruct (same_frame_trans Hf1 Hf2) as (_ & _ & F3 & F4 & _).
  cbn [value_function set_value_function].
  rewrite table_setitem_keeps_Q by (now rewrite F3, F4).
  congruence.
Qed.
End AgentFrame.

(** X17.  Reading an estimate never changes one: after
    [get_value(o, a)], [Q] has the same value at every pair, and every
    estimate that was stored is still stored with the same value (what
    the read may add is a [0.0], which is the value [Q] had there). *)
Theorem get_value_changes_no_estimate (R : Type) (N : PyNumber R)
    (ag : TabularQLearningAgent R) (o o' : observation) (a a' : action_opt) :
  fst (get_value o a ag) = Q (value_function ag) o a
  /\ Q (value_function (snd (get_value o a ag))) o' a' = Q (value_function ag) o' a'
  /\ (forall v, stored (value_function ag) o' a' = Some v ->
                stored (value_function (snd (get_value o a ag))) o' a' = Some v)
  /\ (stored (value_function ag) o a <> None ->
      snd (get_value o a ag) = ag).
Proof.
  split; [apply get_value_fst|].
  split; [apply get_value_keeps_Q|].
  split; [apply get_value_keeps_Q|].
  intros Hs. destruct (stored (value_function ag) o a) as [v|] eqn:E; [|tauto].
  now rewrite (get_value_stored _ _ _ E).
Qed.

(** X18.  A [force_act] call that applies a reward changes the
    estimate of the previous pair only: [Q] keeps its value at every
    pair whose observation is not the previous observation or whose
    action is not the previous action. *)
Theorem force_act_changes_one_estimate (R : Type) (N : PyNumber R)
    (ag : TabularQLearningAgent R) (o : observation) (a : action_opt)
    (reward : option R) (o' : observation) (a' : action_opt) :
  obs_key_eqb (prev_observation ag) o' = false
  \/ act_key_eqb (prev_action ag) a' = false ->
  Q (value_function (snd (force_act o a reward ag))) o' a'
  = Q (value_function ag) o' a'.
Proof.
  intros Hne. unfold force_act. cbn [snd].
  assert (E : Q (value_function
                   match prev_action ag, reward with
                   | Some _, Some r => _observe_reward o r ag
                   | _, _ => ag
                   end) o' a' = Q (value_function ag) o' a').
  { destruct (prev_action ag) as [pa|] eqn:Ep; [|reflexivity].
    destruct reward as [r|]; [|reflexivity].
    apply observe_reward_keeps_Q. now rewrite Ep. }
  now destruct o.
Qed.

Lemma force_act_changes_one_estimate_witness :
  Q (value_function (snd (force_act cell_00 (Some GridWorld.up) (Some 10%float)
                                    revisiting_agent)))
    cell_00 (Some GridWorld.up)
  = Q (value_function revisiting_agent) cell_00 (Some GridWorld.up).
Proof.
  apply (@force_act_changes_one_estimate float float_number revisiting_agent).
  right. reflexivity.
Defined.

(** X19.  No feedback crosses the end of an episode: a [force_act]
    call without a reward, or on an agent with no previous action,
    leaves the value table as it is; a call at the terminal observation
    records no previous action, so the call after it leaves the table
    as it is whatever reward it is given. *)
Theorem force_act_without_feedback (R : Type) (N : PyNumber R)
    (ag : TabularQLearningAgent R) (o o2 : observation) (a a2 : action_opt)
    (reward reward2 : option R) :
  value_function (snd (force_act o a None ag)) = value_function ag
  /\ (prev_action ag = None ->
      value_function (snd (force_act o a reward ag)) = value_function ag)
  /\ prev_observation (snd (force_act o a reward ag)) = o
  /\ prev_action (snd (force_act o a reward ag))
     = match o with None => None | Some _ => a end
  /\ value_function (snd (force_act o2 a2 reward2
                                    (snd (force_act None a reward ag))))
     = value_function (snd (force_act None a reward ag)).
Proof.
  assert (H1 : forall (ag0 : TabularQLearningAgent R) o0 a0 rw0,
             prev_action ag0 = None ->
             value_function (snd (force_act o0 a0 rw0 ag0)) = value_function ag0).
  { intros ag0 o0 a0 rw0 E. unfold force_act. rewrite E. now destruct o0. }
  assert (H2 : forall (ag0 : TabularQLearningAgent R) o0 a0 rw0,
             prev_action (snd (force_act o0 a0 rw0 ag0))
             = match o0 with None => None | Some _ => a0 end).
  { intros ag0 o0 a0 rw0. unfold force_act. now destruct o0. }
  split.
  { unfold force_act. destruct (prev_action ag); now destruct o. }
  split; [apply H1|]. split.
  { unfold force_act. now destruct o. }
  split; [apply H2|].
  apply H1. apply (H2 ag None a reward).
Qed.

(** ** [TabularQLearningAgent.act] *)

(** X20.  What [act] returns.  When the best valued action at the
    observation is an action, [act] returns it (it is a valued action of
    the observation; the list [actions] is not consulted) and does what
    [force_act] does with it.  When there is none (no valued action, or
    the best key is [None]), [act] returns [choice(actions)], a member
    of [actions]; with [actions] empty it raises [IndexError] and the
    agent is left as it was. *)
Theorem act_outcomes (R : Type) (N : PyNumber R) (ag : TabularQLearningAgent R)
    (o : observation) (actions : list Action) (reward : option R) (draw : nat) :
  let best := best_action (value_function ag) o in
  (forall b, best = Some b ->
     act o actions reward draw ag
     = (Ok (Some b), snd (force_act o (Some b) reward ag))
     /\ In (Some b) (valued (value_function ag) o))
  /\ (best = None -> actions <> [] ->
      exists c, In c actions
                /\ act o actions reward draw ag
                   = (Ok (Some c), snd (force_act o (Some c) reward ag)))
  /\ (best = None -> actions = [] ->
      act o actions reward draw ag = (Raise IndexError, ag))
  /\ (valued (value_function ag) o = [] -> best = None).
Proof.
  intros best. split; [|split; [|split]].
  - intros b Hb. split.
    + unfold act. rewrite get_best_action_spec. fold best. rewrite Hb.
      reflexivity.
    + rewrite <- Hb. apply best_action_valued. intros E.
      subst best. unfold best_action in Hb. rewrite E in Hb. discriminate.
  - intros Hb Hne. destruct (choice_nonempty draw Hne) as (c & Ec).
    exists c. split; [eapply choice_in; eassumption|].
    unfold act. rewrite get_best_action_spec. fold best. rewrite Hb, Ec.
    reflexivity.
  - intros Hb ->. unfold act. rewrite get_best_action_spec. fold best.
    rewrite Hb. unfold choice. cbn [List.length Nat.modulo].
    now destruct draw.
  - intros E. subst best. unfold best_action. now rewrite E.
Qed.

(** ** Equality of states and actions *)

Lemma attr_get_in (k : string) (v : value) (d : attrs) :
  NoDup (map fst d) -> (attr_get k d = Some v <-> In (k, v) d).
Proof.
  induction d as [|[k' v'] d IH]; cbn [map fst attr_get In]; intros Hnd.
  - split; [discriminate|tauto].
  - inversion Hnd as [|x l Hnotin Hnd']; subst.
    destruct (String.eqb_spec k k') as [->|Hne].
    + split.
      * intros [= ->]. now left.
      * intros [[= ->]|Hin]; [reflexivity|].
        exfalso. apply Hnotin. apply in_map_iff. now exists (k', v).
    + rewrite (IH Hnd'). split; [tauto|].
      intros [[= E _]|Hin]; [congruence|assumption].
Qed.

Lemma attr_get_none_iff (k : string) (d : attrs) :
  attr_get k d = None <-> ~ In k (map fst d).
Proof.
  split; [|apply attr_get_not_in].
  induction d as [|[k' v'] d IH]; cbn [map fst attr_get In]; [tauto|].
  destruct (String.eqb_spec k k') as [->|Hne]; [discriminate|].
  intros E [E'|Hin]; [congruence|]. now apply IH.
Qed.

(** X21.  Equality of attribute bags looks at the class and at the
    attributes as a set of pairs: two states built from the same pairs
    in any order are equal and are the same key of the value table,
    while a [State] and a plain [AttrDict] with the same attributes are
    not.  Equality of actions does not look at the name: two actions
    with the same attributes compare equal whatever they are called,
    though under different names they are different keys of the value
    table. *)
Theorem equality_of_states_and_actions :
  (forall a b : attrs,
      NoDup (map fst a) -> NoDup (map fst b) ->
      (forall kv, In kv a <-> In kv b) ->
      AttrDict_eq (State a) (State b) = true
      /\ obs_key_eqb (Some (State a)) (Some (State b)) = true)
  /\ (forall a : attrs,
        AttrDict_eq (State a) (mkAttrDict KAttrDict a) = false)
  /\ (forall (n1 n2 : string) (d : attrs),
        Action_eq (mkAction n1 d) (mkAction n2 d) = true
        /\ py_in (mkAction n1 d) [mkAction n2 d] = true
        /\ (n1 <> n2 ->
            act_key_eqb (Some (mkAction n1 d)) (Some (mkAction n2 d)) = false)).
Proof.
  split; [|split].
  - intros a b Ha Hb Hab.
    assert (E : attrs_eqb a b = true).
    { apply attrs_eqb_spec. intros k.
      destruct (attr_get k a) as [v|] eqn:Ea.
      - symmetry. apply (@attr_get_in k v b Hb), Hab, (@attr_get_in k v a Ha), Ea.
      - symmetry. apply attr_get_none_iff. apply attr_get_none_iff in Ea.
        intros Hin. apply Ea. apply in_map_iff in Hin.
        destruct Hin as ([k' v] & <- & Hin). apply in_map_iff.
        exists (k', v). split; [reflexivity|]. now apply Hab. }
    unfold obs_key_eqb, opt_eqb, AttrDict_eq, State.
    cbn [klass_of _attributes_ klass_eqb andb]. now rewrite E.
  - reflexivity.
  - intros n1 n2 d.
    assert (E : Action_eq (mkAction n1 d) (mkAction n2 d) = true)
      by apply attrs_eqb_refl.
    split; [exact E|]. split.
    + unfold py_in. cbn [existsb].
      change (Action_eq (mkAction n2 d) (mkAction n1 d)) with (attrs_eqb d d).
      now rewrite attrs_eqb_refl.
    + intros Hne. unfold act_key_eqb, opt_eqb, Action_key_eqb.
      cbn [name]. apply String.eqb_neq in Hne. now rewrite Hne.
Qed.

(** ** The epsilon-greedy tabular agent *)

Lemma epsilon_greedy_tabular_inv {R : Type} `{PyNumber R} (epsilon : R)
    (o : observation) (actions : list Action) (reward : option R) (u : R)
    (draw rnd : nat) (ag : TabularQLearningAgent R) :
  agent_inv ag ->
  agent_inv (snd (EpsilonGreedyTabular_act epsilon o actions reward u draw rnd ag)).
Proof.
  intros Hinv. unfold EpsilonGreedyTabular_act, EpsilonGreedy_act.
  destruct (ltb u epsilon); [|now apply act_inv].
  destruct (choice draw actions) as [c|e]; [|exact Hinv].
  unfold Tabular_force_act.
  pose proof (force_act_inv o (Some c) reward Hinv) as Hf.
  now destruct (force_act o (Some c) reward ag).
Qed.

(** X22.  Wrapped in [epsilon_greedy], the tabular agent keeps its
    value table free of the terminal marker too: for every [epsilon],
    every sequence of [act] calls and every outcome of the random
    draws, no row is keyed by [None] afterwards. *)
Theorem epsilon_greedy_table_never_holds_terminal (R : Type) (N : PyNumber R)
    (epsilon alpha gamma : R) (calls : list (@act_call R nat)) :
  let final :=
    snd (run_wrapped (fun o actions reward rnd ag => act o actions reward rnd ag)
                     Tabular_force_act epsilon calls (init alpha gamma)) in
  ~ In None (dict_keys (value_function final))
  /\ (prev_action final <> None -> prev_observation final <> None).
Proof.
  intros final. subst final.
  assert (G : forall (cs : list (@act_call R nat)) (ag : TabularQLearningAgent R),
             agent_inv ag ->
             agent_inv
               (snd (run_wrapped
                       (fun o actions reward rnd ag => act o actions reward rnd ag)
                       Tabular_force_act epsilon cs ag))).
  { induction cs as [|c cs IH]; intros ag Hinv; [exact Hinv|].
    cbn [run_wrapped].
    pose proof (epsilon_greedy_tabular_inv epsilon (call_observation c)
                  (call_actions c) (call_reward c) (call_random c)
                  (call_draw c) (call_rnd c) Hinv) as H1.
    unfold EpsilonGreedyTabular_act in H1.
    destruct (EpsilonGreedy_act _ _ _ _ _ _ _ _ _ ag) as [a s1].
    cbn [snd] in H1. specialize (IH s1 H1).
    destruct (run_wrapped _ _ _ cs s1) as [out s2]. exact IH. }
  exact (G calls (init alpha gamma) (init_inv alpha gamma)).
Qed.

Lemma background_picture (n : nat) :
  is_picture (repeat [" "; "_"; " "]%char n) n.
Proof.
  split; [apply repeat_length|].
  intros i line H. apply nth_error_In, repeat_spec in H. now subst line.
Qed.

Lemma set_cell_in_picture (lines : list (list ascii)) (n : nat) (i j : Z)
    (c : ascii) :
  is_picture lines n -> 0 <= i < Z.of_nat n -> 0 <= j < 3 ->
  exists lines',
    set_cell lines i j c = Ok lines'
    /\ is_picture lines' n
    /\ cell lines' (Z.to_nat i) (Z.to_nat j) = Some c
    /\ (forall i' j', i' <> Z.to_nat i \/ j' <> Z.to_nat j ->
                      cell lines' i' j' = cell lines i' j').
Proof.
  intros [Hlen Hrows] Hi Hj. unfold set_cell, py_getitem, getitem.
  destruct (Z.ltb_spec i 0) as [|_]; [lia|].
  replace ((0 <=? i) && (i <? Z.of_nat (List.length lines))) with true
    by (symmetry; apply andb_true_iff; split;
        [apply Z.leb_le | apply Z.ltb_lt]; lia).
  destruct (nth_error lines (Z.to_nat i)) as [line|] eqn:El.
  2:{ apply nth_error_None in El. lia. }
  cbn [bind]. pose proof (Hrows _ _ El) as Hl3.
  assert (Hj' : - Z.of_nat (List.length line) <= j < Z.of_nat (List.length line))
    by (rewrite Hl3; lia).
  destruct (@list_setitem_in_range _ line j c Hj')
    as (line' & E1 & Hlen1 & Hnth1 & Hoth1).
  rewrite E1. cbn [bind].
  assert (Hi' : - Z.of_nat (List.length lines) <= i < Z.of_nat (List.length lines))
    by lia.
  destruct (@list_setitem_in_range _ lines i line' Hi')
    as (lines' & E2 & Hlen2 & Hnth2 & Hoth2).
  destruct (Z.ltb_spec i 0) as [|_]; [lia|].
  destruct (Z.ltb_spec j 0) as [|_]; [lia|].
  exists lines'. split; [exact E2|]. split; [|split].
  - split; [congruence|]. intros i' l' H'.
    destruct (Nat.eq_dec i' (Z.to_nat i)) as [->|Hne].
    + rewrite Hnth2 in H'. injection H' as <-. congruence.
    + rewrite (Hoth2 _ Hne) in H'. eauto.
  - unfold cell. now rewrite Hnth2.
  - intros i' j' Hne. unfold cell.
    destruct (Nat.eq_dec i' (Z.to_nat i)) as [->|Hi''].
    + rewrite Hnth2, El. apply Hoth1. destruct Hne; [contradiction|assumption].
    + now rewrite (Hoth2 _ Hi'').
Qed.

(** X23.  [visualize()] of a maze built by [TMaze.__init__], at a
    position of the maze, succeeds and returns [length + 1] lines of three
    characters joined by newlines, the far end of the corridor first.
    The first line has [$] on the goal's side and [#] on the other.  The
    middle column of line [length - y] shows the agent as [*], unless a
    hint is at the same [y]: the marks are written in the order [*], [!],
    [?], so the second hint's [?] hides the first hint's [!], and either
    hides the agent.  The picture does not depend on [x]: an agent that
    has taken a side is still drawn at the junction. *)
Theorem tmaze_visualize_picture (f : TMaze.fields) :
  in_maze f ->
  tmaze_config_ok (TMaze.length f) (TMaze.hint_pos f) (TMaze.hint_pos_2 f)
                  (TMaze.redundant f) = true ->
  exists lines,
    tmaze_visualize_lines f = Ok lines
    /\ tmaze_visualize f
       = Ok (String.concat (String "010" EmptyString)
                           (map string_of_list_ascii lines))
    /\ is_picture lines (Z.to_nat (TMaze.length f + 1))
    /\ cell lines 0 (Z.to_nat (1 + TMaze.goal_x f)) = Some "$"%char
    /\ cell lines 0 (Z.to_nat (1 - TMaze.goal_x f)) = Some "#"%char
    /\ cell lines (Z.to_nat (TMaze.length f - TMaze.y f)) 1
       = Some (match TMaze.hint_pos_2 f with
               | Some h2 =>
                   if TMaze.y f =? h2 then "?"%char
                   else if TMaze.y f =? TMaze.hint_pos f then "!"%char
                        else "*"%char
               | None =>
                   if TMaze.y f =? TMaze.hint_pos f then "!"%char
                   else "*"%char
               end)
    /\ (forall x', tmaze_visualize (TMaze.set_xy x' (TMaze.y f) f)
                   = tmaze_visualize f).
Proof.
  intros (Hy & _ & Hg) Hc. unfold tmaze_config_ok in Hc.
  apply andb_true_iff in Hc as [Hc _].
  apply andb_true_iff in Hc as [Hc Hh2].
  apply andb_true_iff in Hc as [Hh0 Hh1].
  apply Z.leb_le in Hh0, Hh1.
  assert (Hvis : forall lines, tmaze_visualize_lines f = Ok lines ->
            tmaze_visualize f
            = Ok (String.concat (String "010" EmptyString)
                                (map string_of_list_ascii lines)))
    by (intros lines E; unfold tmaze_visualize; now rewrite E).
  revert Hvis. unfold tmaze_visualize_lines.
  set (n := Z.to_nat (TMaze.length f + 1)).
  assert (Hn : Z.of_nat n = TMaze.length f + 1) by (subst n; lia).
  pose proof (background_picture n) as P0.
  destruct (@set_cell_in_picture _ n 0 (1 + TMaze.goal_x f) "$"%char P0)
    as (l1 & E1 & P1 & S1 & O1); [lia|lia|].
  rewrite E1. cbn [bind].
  destruct (@set_cell_in_picture _ n 0 (1 - TMaze.goal_x f) "#"%char P1)
    as (l2 & E2 & P2 & S2 & O2); [lia|lia|].
  rewrite E2. cbn [bind].
  destruct (@set_cell_in_picture _ n (TMaze.length f - TMaze.y f) 1 "*"%char P2)
    as (l3 & E3 & P3 & S3 & O3); [lia|lia|].
  rewrite E3. cbn [bind].
  destruct (@set_cell_in_picture _ n (TMaze.length f - TMaze.hint_pos f) 1
                                 "!"%char P3)
    as (l4 & E4 & P4 & S4 & O4); [lia|lia|].
  rewrite E4. cbn [bind].
  change (Z.to_nat 0) with 0%nat in *. change (Z.to_nat 1) with 1%nat in *.
  assert (Hg1 : Z.to_nat (1 + TMaze.goal_x f) <> 1%nat) by lia.
  assert (Hg2 : Z.to_nat (1 - TMaze.goal_x f) <> 1%nat) by lia.
  assert (Hg3 : Z.to_nat (1 + TMaze.goal_x f) <> Z.to_nat (1 - TMaze.goal_x f))
    by lia.
  assert (C4 : cell l4 (Z.to_nat (TMaze.length f - TMaze.y f)) 1
               = Some (if TMaze.y f =? TMaze.hint_pos f then "!"%char
                       else "*"%char)).
  { destruct (Z.eqb_spec (TMaze.y f) (TMaze.hint_pos f)) as [Ey|Ny].
    - rewrite Ey. exact S4.
    - rewrite O4 by lia. exact S3. }
  assert (D4 : cell l4 0 (Z.to_nat (1 + TMaze.goal_x f)) = Some "$"%char).
  { rewrite O4, O3, O2 by lia. exact S1. }
  assert (H4 : cell l4 0 (Z.to_nat (1 - TMaze.goal_x f)) = Some "#"%char).
  { rewrite O4, O3 by lia. exact S2. }
  destruct (TMaze.hint_pos_2 f) as [h2|].
  - apply andb_true_iff in Hh2 as [Ha Hb]. apply Z.leb_le in Ha, Hb.
    destruct (@set_cell_in_picture _ n (TMaze.length f - h2) 1 "?"%char P4)
      as (l5 & E5 & P5 & S5 & O5); [lia|lia|].
    change (Z.to_nat 1) with 1%nat in *.
    intros Hvis. exists l5. split; [exact E5|]. split; [now apply Hvis|].
    split; [exact P5|]. split; [|split; [|split]].
    + rewrite O5 by lia. exact D4.
    + rewrite O5 by lia. exact H4.
    + destruct (Z.eqb_spec (TMaze.y f) h2) as [Ey|Ny].
      * rewrite Ey. exact S5.
      * rewrite O5 by lia. exact C4.
    + reflexivity.
  - intros Hvis. exists l4. split; [reflexivity|]. split; [now apply Hvis|].
    split; [exact P4|]. repeat split; assumption.
Qed.

Lemma tmaze_visualize_picture_witness :
  exists lines,
    tmaze_visualize_lines tmaze_junction = Ok lines
    /\ cell lines 0 1 = Some "*"%char.
Proof.
  destruct (@tmaze_visualize_picture tmaze_junction) as (l & E & _ & _ & _ & _ & C & _).
  - unfold in_maze. cbn. lia.
  - reflexivity.
  - exists l. split; [exact E|]. exact C.
Defined.
